(** * LiteX IceStorm toolchain driver (litex/build/lattice/icestorm.py)

    A shallow embedding of the constraint emitters, the script builders, the
    device parser and the toolchain facade, with the properties the
    specification states about them. *)

From Stdlib Require Import Ascii QArith Qcanon.
From stdpp Require Import gmap strings pretty list.

Local Open Scope stdpp_scope.

(** ** Python runtime pieces the module relies on *)

Module Py.

(** The exceptions the module raises, or lets the runtime raise. *)
Inductive exn :=
| ValueError (msg : string)
| IndexError (msg : string)
| KeyError (key : string)
| ZeroDivisionError (msg : string)
| OSError (msg : string).

Inductive result (A : Type) :=
| Ok (a : A)
| Raise (e : exn).
Global Arguments Ok {A} a.
Global Arguments Raise {A} e.

Definition bind {A B} (m : result A) (k : A → result B) : result B :=
  match m with
  | Ok a => k a
  | Raise e => Raise e
  end.

Definition is_ok {A} (m : result A) : bool :=
  match m with Ok _ => true | Raise _ => false end.

(** [for x in l: body], threading the loop-carried variables [s]. *)
Fixpoint for_each {A S} (l : list A) (body : A → S → result S) (s : S)
  : result S :=
  match l with
  | [] => Ok s
  | x :: l' => bind (body x s) (for_each l' body)
  end.

(** [enumerate(l)] *)
Definition enumerate {A} (l : list A) : list (nat * A) :=
  imap (λ i x, (i, x)) l.

(** [l[i]] on a list. *)
Definition getitem {A} (l : list A) (i : nat) : result A :=
  match l !! i with
  | Some x => Ok x
  | None => Raise (IndexError "list index out of range")
  end.

(** [s.split(sep)] for a one-character separator. *)
Fixpoint split (sep : ascii) (s : string) : list string :=
  match s with
  | "" => [""]
  | String c r =>
      if decide (c = sep) then "" :: split sep r
      else match split sep r with
           | h :: t => String c h :: t
           | [] => [String c ""]
           end
  end.

(** [sep.join(l)] *)
Fixpoint join (sep : string) (l : list string) : string :=
  match l with
  | [] => ""
  | [x] => x
  | x :: l' => x +:+ sep +:+ join sep l'
  end.

(** A [dict] keeps its entries in insertion order. [d.get(k)]: *)
Fixpoint dict_get `{EqDecision K} {V} (d : list (K * V)) (k : K)
  : option V :=
  match d with
  | [] => None
  | (k', v) :: d' => if decide (k' = k) then Some v else dict_get d' k
  end.

(** [d[k] = v]: an existing key keeps its place, a new one goes last. *)
Fixpoint dict_set `{EqDecision K} {V} (d : list (K * V)) (k : K) (v : V)
  : list (K * V) :=
  match d with
  | [] => [(k, v)]
  | (k', v') :: d' =>
      if decide (k' = k) then (k, v) :: d' else (k', v') :: dict_set d' k v
  end.

(** [x in l] for a list of strings. *)
Definition mem (x : string) (l : list string) : bool :=
  bool_decide (x ∈ l).

(** [str.format] with keyword arguments [kw], for templates whose replacement fields are
    plain names, as all templates of the module are; [{{] and [}}] are the
    escaped braces. Conversions, format specifications and attribute or
    index access inside a field are outside the model and rejected. *)
Inductive fmt_state :=
| InText
| AfterOpen
| InField (name : string)
| AfterClose.

Definition is_digit (c : ascii) : bool :=
  let n := nat_of_ascii c in Nat.leb 48 n && Nat.leb n 57.

Fixpoint all_digits (s : string) : bool :=
  match s with
  | "" => true
  | String c r => is_digit c && all_digits r
  end.

Definition field_value (kw : list (string * string)) (name : string)
  : result string :=
  if all_digits name then
    Raise (IndexError "Replacement index out of range for positional args tuple")
  else
    match dict_get kw name with
    | Some v => Ok v
    | None => Raise (KeyError name)
    end.

Definition field_special (c : ascii) : bool :=
  bool_decide (c ∈ ["{"; "!"; ":"; "."; "["]%char).

Fixpoint format_go (kw : list (string * string)) (st : fmt_state)
    (s : string) : result string :=
  match st, s with
  | InText, "" => Ok ""
  | InText, String c r =>
      if decide (c = "{"%char) then format_go kw AfterOpen r
      else if decide (c = "}"%char) then format_go kw AfterClose r
      else bind (format_go kw InText r) (λ o, Ok (String c o))
  | AfterOpen, "" =>
      Raise (ValueError "Single '{' encountered in format string")
  | AfterOpen, String c r =>
      if decide (c = "{"%char) then
        bind (format_go kw InText r) (λ o, Ok (String c o))
      else if decide (c = "}"%char) then
        bind (field_value kw "") (λ v,
        bind (format_go kw InText r) (λ o, Ok (v +:+ o)))
      else if field_special c then
        Raise (ValueError "unsupported replacement field")
      else format_go kw (InField (String c "")) r
  | InField name, "" =>
      Raise (ValueError "expected '}' before end of string")
  | InField name, String c r =>
      if decide (c = "}"%char) then
        bind (field_value kw name) (λ v,
        bind (format_go kw InText r) (λ o, Ok (v +:+ o)))
      else if field_special c then
        Raise (ValueError "unsupported replacement field")
      else format_go kw (InField (name +:+ String c "")) r
  | AfterClose, String c r =>
      if decide (c = "}"%char) then
        bind (format_go kw InText r) (λ o, Ok (String c o))
      else Raise (ValueError "Single '}' encountered in format string")
  | AfterClose, "" =>
      Raise (ValueError "Single '}' encountered in format string")
  end.

Definition format (template : string) (kw : list (string * string))
  : result string :=
  format_go kw InText template.

End Py.

Import Py.

(** The line feed and the double quote, which string literals here do not
    spell. *)
Notation "'LF'" := (String "010"%char EmptyString).
Notation "'DQ'" := (String "034"%char EmptyString).

Global Instance result_bind : MBind result := λ A B k m, Py.bind m k.

(** ** IO constraints (.pcf) *)

(** One entry of [named_sc]: (sig, pins, others, resname). *)
Definition SignalConstraint : Type :=
  string * list string * list string * string.

Definition _build_pcf (named_sc : list SignalConstraint)
    (named_pc : list string) : result string :=
  r ← for_each named_sc (λ '(sig, pins, others, resname) r,
         if Nat.ltb 1 (length pins) then
           Ok (fold_left (λ r '(bit, pin),
                 r +:+ "set_io " +:+ sig +:+ "[" +:+ pretty bit +:+ "] "
                   +:+ pin +:+ LF) (enumerate pins) r)
         else
           pin ← getitem pins 0;
           Ok (r +:+ "set_io " +:+ sig +:+ " " +:+ pin +:+ LF)) "";
  Ok (match named_pc with
      | [] => r
      | _ => r +:+ LF +:+ join (LF +:+ LF) named_pc
      end).

(** The body of the loop over [named_sc], as a function of its own. *)
Definition pcf_step : SignalConstraint → string → result string :=
  λ '(sig, pins, others, resname) r,
  if Nat.ltb 1 (length pins) then
    Ok (fold_left (λ r '(bit, pin),
          r +:+ "set_io " +:+ sig +:+ "[" +:+ pretty bit +:+ "] "
            +:+ pin +:+ LF) (enumerate pins) r)
  else
    pin ← getitem pins 0;
    Ok (r +:+ "set_io " +:+ sig +:+ " " +:+ pin +:+ LF).

(** What the specification says the pin/IO emitter writes. *)
Module PcfSpec.

(** The lines of one signal, without their line terminator. *)
Definition sig_lines (sc : SignalConstraint) : list string :=
  let '(sig, pins, _, _) := sc in
  match pins with
  | [pin] => ["set_io " +:+ sig +:+ " " +:+ pin]
  | _ => imap (λ bit pin,
           "set_io " +:+ sig +:+ "[" +:+ pretty bit +:+ "] " +:+ pin) pins
  end.

(** Every line followed by a newline. *)
Fixpoint unlines (ls : list string) : string :=
  match ls with
  | [] => ""
  | l :: ls' => l +:+ LF +:+ unlines ls'
  end.

(** The raw platform constraints: nothing when there are none, otherwise
    an empty line and the entries as they are, an empty line between two
    of them. *)
Definition raw_block (named_pc : list string) : string :=
  match named_pc with
  | [] => ""
  | _ => LF +:+ join (LF +:+ LF) named_pc
  end.

Definition has_pins (sc : SignalConstraint) : Prop :=
  sc.1.1.2 ≠ [].

End PcfSpec.

(** ** Device identifiers *)

Definition packages : list (string * list string) := [
  ("lp384", ["qn32"; "cm36"; "cm49"]);
  ("lp1k", ["swg16tr"; "cm36"; "cm49"; "cm81"; "cb81"; "qn84"; "cm121"; "cb121"]);
  ("hx1k", ["vq100"; "cb132"; "tq144"]);
  ("lp8k", ["cm81"; "cm81:4k"; "cm121"; "cm121:4k"; "cm225"; "cm225:4k"]);
  ("hx8k", ["bg121"; "bg121:4k"; "cb132"; "cb132:4k"; "cm121";
            "cm121:4k"; "cm225"; "cm225:4k"; "cm81"; "cm81:4k";
            "ct256"; "tq144:4k"]);
  ("up3k", ["sg48"; "uwg30"]);
  ("up5k", ["sg48"; "uwg30"]);
  ("u4k", ["sg48"])
].

Definition parse_device (device : string)
    : result (string * string * string) :=
  match split "-"%char device with
  | [family; architecture; package] =>
      if negb (mem family ["ice40"]) then
        Raise (ValueError ("Unknown device family " +:+ family))
      else if negb (mem architecture packages.*1) then
        Raise (ValueError ("Invalid device architecture " +:+ architecture))
      else
        match dict_get packages architecture with
        | None => Raise (KeyError architecture)
        | Some pkgs =>
            if negb (mem package pkgs) then
              Raise (ValueError ("Invalid device package " +:+ package))
            else Ok (family, architecture, package)
        end
  | _ :: _ :: _ :: _ :: _ =>
      Raise (ValueError "too many values to unpack (expected 3)")
  | fields =>
      Raise (ValueError ("not enough values to unpack (expected 3, got "
                         +:+ pretty (length fields) +:+ ")"))
  end.



(** ** Signals, name resolution and the world the toolchain acts on *)

(** A migen [Signal] is compared and hashed by identity. *)
Record Signal := Sig { duid : nat }.

Global Instance Signal_eq_dec : EqDecision Signal.
Proof. solve_decision. Defined.

Global Instance Signal_countable : Countable Signal :=
  inj_countable' duid Sig (λ s, match s with Sig _ => eq_refl end).

(** [v_output.ns] *)
Record Namespace := { get_name : Signal → string }.

(** The fields of the platform object the toolchain reads and extends. *)
Record Platform := {
  device : string;
  verilog_include_paths : list string;
  sources : list (string * string * string)
}.

(** Clock periods are numbers in nanoseconds. Python compares and divides
    ints and finite floats by their value, so the model takes them as
    rationals in lowest terms, [Qc], where equal values are equal terms. *)
Global Instance Qc_eq_decision : EqDecision Qc := Qc_eq_dec.

Record World := {
  cwd : string;
  dirs : gset string;
  files : gmap string string;
  platform : Platform;
  attr : gmap Signal (gset string);
  clocks : list (Signal * Qc)
}.

Definition set_cwd (d : string) (w : World) : World :=
  {| cwd := d; dirs := dirs w; files := files w; platform := platform w;
     attr := attr w; clocks := clocks w |}.
Definition set_dirs (ds : gset string) (w : World) : World :=
  {| cwd := cwd w; dirs := ds; files := files w; platform := platform w;
     attr := attr w; clocks := clocks w |}.
Definition set_files (fs : gmap string string) (w : World) : World :=
  {| cwd := cwd w; dirs := dirs w; files := fs; platform := platform w;
     attr := attr w; clocks := clocks w |}.
Definition set_platform (p : Platform) (w : World) : World :=
  {| cwd := cwd w; dirs := dirs w; files := files w; platform := p;
     attr := attr w; clocks := clocks w |}.
Definition set_attr (a : gmap Signal (gset string)) (w : World) : World :=
  {| cwd := cwd w; dirs := dirs w; files := files w; platform := platform w;
     attr := a; clocks := clocks w |}.
Definition set_clocks (c : list (Signal * Qc)) (w : World) : World :=
  {| cwd := cwd w; dirs := dirs w; files := files w; platform := platform w;
     attr := attr w; clocks := c |}.

(** Statements that read and write the world and may raise; an exception
    leaves the world as it was when raised. *)
Definition M (A : Type) : Type := World → result A * World.

Global Instance M_ret : MRet M := λ A a w, (Ok a, w).
Global Instance M_bind : MBind M := λ A B k m w,
  match m w with
  | (Ok a, w') => k a w'
  | (Raise e, w') => (Raise e, w')
  end.

Definition raise {A} (e : exn) : M A := λ w, (Raise e, w).
Definition lift {A} (r : result A) : M A := λ w, (r, w).
Definition get_world : M World := λ w, (Ok w, w).
Definition modify (f : World → World) : M unit := λ w, (Ok (), f w).

(** A path as the process resolves it from its working directory, on a
    POSIX host. *)
Definition resolve (wd path : string) : string :=
  match path with
  | String "/" _ => path
  | _ => wd +:+ "/" +:+ path
  end.

(** [os.makedirs(d, exist_ok=True)], [os.getcwd()], [os.chdir(d)] *)
Definition makedirs (d : string) : M unit :=
  modify (λ w, set_dirs ({[resolve (cwd w) d]} ∪ dirs w) w).
Definition getcwd : M string := λ w, (Ok (cwd w), w).
Definition chdir (d : string) : M unit :=
  modify (λ w, set_cwd (resolve (cwd w) d) w).

(** Modelled from the spec: [tools.write_to_file] of litex.build.tools, the
    file-write collaborator [writeTextFile(path, content)], which leaves the
    complete content at the path. *)
Definition write_to_file (filename contents : string) : M unit :=
  modify (λ w, set_files (<[resolve (cwd w) filename := contents]> (files w)) w).

(** Modelled from the spec: [GenericPlatform.add_source], the elaboration
    collaborator's [addSourceFile(path)], which registers one more source;
    a [.v] file is verilog in the default library. *)
Definition add_source (filename : string) : M unit :=
  modify (λ w,
    let p := platform w in
    set_platform {| device := device p;
                    verilog_include_paths := verilog_include_paths p;
                    sources := sources p ++ [(filename, "verilog", "work")] |} w).

(** ** Yosys/Nextpnr helpers and templates *)

Definition _yosys_template : list string := [
  "verilog_defaults -push";
  "verilog_defaults -add -defer";
  "{read_files}";
  "verilog_defaults -pop";
  "attrmap -tocase keep -imap keep=" +:+ DQ +:+ "true" +:+ DQ
    +:+ " keep=1 -imap keep=" +:+ DQ +:+ "false" +:+ DQ
    +:+ " keep=0 -remove keep=0";
  "synth_ice40 {synth_opts} -json {build_name}.json -top {build_name} -dsp"
].

Definition _yosys_import_sources (platform : Platform) : string :=
  let includes :=
    fold_left (λ includes path, includes +:+ " -I" +:+ path)
              (verilog_include_paths platform) "" in
  let reads :=
    fold_left (λ reads '(filename, language, library),
                 let language :=
                   if decide (language = "systemverilog") then "verilog -sv"
                   else language in
                 reads ++ ["read_" +:+ language +:+ includes +:+ " "
                             +:+ filename])
              (sources platform) [] in
  join LF reads.

Definition _build_yosys (template : list string) (platform : Platform)
    (build_name synth_opts : string) : M unit :=
  ys ← lift (for_each template (λ l ys,
         line ← format l [("build_name", build_name);
                          ("read_files", _yosys_import_sources platform);
                          ("synth_opts", synth_opts)];
         Ok (ys ++ [line])) []);
  write_to_file (build_name +:+ ".ys") (join LF ys).

(** ** Build script *)

Definition _build_template : list string := [
  "yosys -l {build_name}.rpt {build_name}.ys";
  "nextpnr-ice40 --json {build_name}.json --pcf {build_name}.pcf --asc {build_name}.txt     --pre-pack {build_name}_pre_pack.py --{architecture} --package {package} {timefailarg} {ignoreloops} --seed {seed}";
  "icepack -s {build_name}.txt {build_name}.bin"
].

(** What the interpreter, the host and litex.build.tools provide. *)
Record Env := {
  (** [str.format] of a float with the default and the [.2f] format *)
  float_str : Qc → string;
  float_2f : Qc → string;
  (** [sys.platform] *)
  sys_platform : string;
  (** [shutil.which] *)
  which : string → option string;
  (** [subprocess.call]: the exit status of the command run from the
      current world *)
  subprocess_call : list string → World → Z;
  (** [tools.get_litex_git_revision()] *)
  get_litex_git_revision : string
}.

(** The result of elaboration the platform hands back to [build]:
    [platform.get_verilog] and [platform.resolve_signals]. *)
Record Elaborated := {
  v_text : string;
  v_ns : Namespace;
  named_sc : list SignalConstraint;
  named_pc : list string
}.

(** The toolchain object's templates; its [clocks] dict lives in the world. *)
Record LatticeIceStormToolchain := {
  yosys_template : list string;
  build_template : list string
}.

Definition LatticeIceStormToolchain_init : LatticeIceStormToolchain :=
  {| yosys_template := _yosys_template; build_template := _build_template |}.

Section Toolchain.

Variable env : Env.

(** [1e3/period] *)
Definition truediv_1e3 (period : Qc) : result Qc :=
  if decide (period = Q2Qc 0) then
    Raise (ZeroDivisionError "float division by zero")
  else Ok (Q2Qc 1000 / period)%Qc.

(** *** Timing constraints (in pre_pack file) *)

Definition _build_pre_pack (vns : Namespace) (clocks : list (Signal * Qc))
  : result string :=
  for_each clocks (λ '(clk, period) r,
    freq ← truediv_1e3 period;
    Ok (r +:+ "ctx.addClock(" +:+ DQ +:+ get_name vns clk +:+ DQ +:+ ", "
          +:+ float_str env freq +:+ ")" +:+ LF)) "".

(** *** Script *)

Definition on_windows : bool := mem (sys_platform env) ["win32"; "cygwin"].

Definition _build_script (build_template : list string)
    (build_name architecture package : string)
    (timingstrict ignoreloops : bool) (seed : Z) : M string :=
  let '(script_ext, script_contents, fail_stmt) :=
    if on_windows then
      (".bat",
       "@echo off" +:+ LF +:+ "rem Autogenerated by LiteX / git: "
         +:+ get_litex_git_revision env +:+ LF +:+ LF,
       " || exit /b")
    else
      (".sh",
       "# Autogenerated by LiteX / git: " +:+ get_litex_git_revision env
         +:+ LF +:+ "set -e" +:+ LF,
       "") in
  script_contents ← lift (for_each build_template (λ s script_contents,
    let s_fail := s +:+ "{fail_stmt}" +:+ LF in
    line ← format s_fail [
      ("build_name", build_name);
      ("architecture", architecture);
      ("package", package);
      ("timefailarg", if negb timingstrict then "--timing-allow-fail" else "");
      ("ignoreloops", if ignoreloops then "--ignore-loops" else "");
      ("fail_stmt", fail_stmt);
      ("seed", pretty seed)];
    Ok (script_contents +:+ line)) script_contents);
  let script_file := "build_" +:+ build_name +:+ script_ext in
  write_to_file script_file script_contents;;
  mret script_file.

Definition _run_script (script : string) : M unit :=
  let shell := if on_windows then ["cmd"; "/c"] else ["bash"] in
  if bool_decide (which env "yosys" = None)
     || bool_decide (which env "nextpnr-ice40" = None) then
    raise (OSError ("Unable to find Yosys/Nextpnr toolchain, please:" +:+ LF
                    +:+ "- Add Yosys/Nextpnr toolchain to your $PATH."))
  else
    w ← get_world;
    if bool_decide (subprocess_call env (shell ++ [script]) w ≠ 0%Z) then
      raise (OSError "Error occured during Yosys/Nextpnr's script execution.")
    else mret ().

(** *** LatticeIceStormToolchain *)

(** [platform] is the platform object of the world; finalizing the design
    and generating the verilog are the platform's work, whose results are
    [design]. *)
Definition build (self : LatticeIceStormToolchain) (design : Elaborated)
    (build_dir build_name synth_opts : string)
    (run timingstrict ignoreloops : bool) (seed : Z) : M Namespace :=
  (* Create build directory *)
  makedirs build_dir;;
  cwd ← getcwd;
  chdir build_dir;;
  (* Generate verilog *)
  let v_file := build_name +:+ ".v" in
  write_to_file v_file (v_text design);;
  add_source v_file;;
  (* Generate design io constraints file (.pcf) *)
  pcf ← lift (_build_pcf (named_sc design) (named_pc design));
  write_to_file (build_name +:+ ".pcf") pcf;;
  (* Generate design timing constraints file (in pre_pack file) *)
  w ← get_world;
  pre_pack ← lift (_build_pre_pack (v_ns design) (clocks w));
  write_to_file (build_name +:+ "_pre_pack.py") pre_pack;;
  (* Generate Yosys script *)
  w ← get_world;
  _build_yosys (yosys_template self) (platform w) build_name synth_opts;;
  (* Translate device to Nextpnr architecture/package *)
  '(family, architecture, package) ← lift (parse_device (device (platform w)));
  (* Generate build script *)
  script ← _build_script (build_template self) build_name architecture
             package timingstrict ignoreloops seed;
  (* Run *)
  (if run then _run_script script else mret ());;
  chdir cwd;;
  mret (v_ns design).

(** The method does not use its [platform] argument; [self.clocks] and
    [clk.attr] are in the world. *)
Definition add_period_constraint (clk : Signal) (period : Qc) : M unit :=
  modify (λ w, set_attr (<[clk := {["keep"]} ∪ attr w !!! clk]> (attr w)) w);;
  w ← get_world;
  match dict_get (clocks w) clk with
  | Some stored =>
      if bool_decide (period ≠ stored) then
        raise (ValueError ("Clock already constrained to "
                           +:+ float_2f env stored
                           +:+ "ns, new constraint to "
                           +:+ float_2f env period +:+ "ns"))
      else mret ()
  | None => mret ()
  end;;
  modify (λ w, set_clocks (dict_set (clocks w) clk period) w).

End Toolchain.

(** ** What the specification says the emitters and builders write *)

Module PrePackSpec.

(** The line of one constrained clock, without its line terminator. *)
Definition clock_line (env : Env) (vns : Namespace) (cp : Signal * Qc)
  : string :=
  "ctx.addClock(" +:+ DQ +:+ get_name vns cp.1 +:+ DQ +:+ ", "
    +:+ float_str env (Q2Qc 1000 / cp.2)%Qc +:+ ")".

End PrePackSpec.

(** ** A host for the examples *)

(** Numbers are shown as fractions, the tools are all on the search path or
    all missing, and the generated script exits with the given status. *)
Definition sample_env (platform : string) (tools : bool) (status : Z)
  : Env := {|
  float_str := λ q, pretty (Qnum q) +:+ "/" +:+ pretty (Zpos (Qden q));
  float_2f := λ q, pretty (Qnum q) +:+ "/" +:+ pretty (Zpos (Qden q));
  sys_platform := platform;
  which := λ tool, if tools then Some ("/usr/bin/" +:+ tool) else None;
  subprocess_call := λ _ _, status;
  get_litex_git_revision := "0123abcd"
|}.

Definition sample_world (dev : string) : World := {|
  cwd := "/home/user/project";
  dirs := ∅;
  files := ∅;
  platform := {| device := dev; verilog_include_paths := []; sources := [] |};
  attr := ∅;
  clocks := []
|}.

Definition sample_design : Elaborated := {|
  v_text := "module top(); endmodule";
  v_ns := {| get_name := λ s, "clk" +:+ pretty (duid s) |};
  named_sc := [("led", ["A1"], [], "user_led")];
  named_pc := []
|}.

(** [clk.attr.add("keep")] as a change of the world. *)
Definition mark_keep (clk : Signal) (w : World) : World :=
  set_attr (<[clk := {["keep"]} ∪ attr w !!! clk]> (attr w)) w.

Module YosysSpec.

(** The keyword a language name is read with. *)
Definition effective_language (language : string) : string :=
  if decide (language = "systemverilog") then "verilog -sv" else language.

(** One [-I<path>] flag per include-search path, in order. *)
Definition include_flags (paths : list string) : string :=
  foldr (λ path flags, " -I" +:+ path +:+ flags) "" paths.

(** The directive of one source file. *)
Definition read_directive (paths : list string)
    (src : string * string * string) : string :=
  "read_" +:+ effective_language src.1.2 +:+ include_flags paths
    +:+ " " +:+ src.1.1.

End YosysSpec.

Module ScriptSpec.

(** The keyword arguments every template line is rendered with. *)
Definition script_kwargs (build_name architecture package : string)
    (timingstrict ignoreloops : bool) (fail_stmt : string) (seed : Z)
  : list (string * string) := [
  ("build_name", build_name);
  ("architecture", architecture);
  ("package", package);
  ("timefailarg", if negb timingstrict then "--timing-allow-fail" else "");
  ("ignoreloops", if ignoreloops then "--ignore-loops" else "");
  ("fail_stmt", fail_stmt);
  ("seed", pretty seed)].

(** The failure suffix of a line, by branch. *)
Definition fail_suffix (windows : bool) : string :=
  if windows then " || exit /b" else "".

(** The text of the script from its rendered template lines. *)
Definition script_text (windows : bool) (revision : string)
    (lines : list string) : string :=
  if windows then
    "@echo off" +:+ LF +:+ "rem Autogenerated by LiteX / git: "
      +:+ revision +:+ LF +:+ LF
      +:+ PcfSpec.unlines ((λ line, line +:+ " || exit /b") <$> lines)
  else
    "# Autogenerated by LiteX / git: " +:+ revision +:+ LF
      +:+ "set -e" +:+ LF +:+ PcfSpec.unlines lines.

(** The lines of the module's own build template, rendered. *)
Definition stock_lines (build_name architecture package : string)
    (timingstrict ignoreloops : bool) (seed : Z) : list string := [
  "yosys -l " +:+ build_name +:+ ".rpt " +:+ build_name +:+ ".ys";
  "nextpnr-ice40 --json " +:+ build_name +:+ ".json --pcf " +:+ build_name
    +:+ ".pcf --asc " +:+ build_name +:+ ".txt     --pre-pack "
    +:+ build_name +:+ "_pre_pack.py --" +:+ architecture +:+ " --package "
    +:+ package +:+ " "
    +:+ (if negb timingstrict then "--timing-allow-fail" else "") +:+ " "
    +:+ (if ignoreloops then "--ignore-loops" else "") +:+ " --seed "
    +:+ pretty seed;
  "icepack -s " +:+ build_name +:+ ".txt " +:+ build_name +:+ ".bin"
].

(** The text of the module's own script, cut at the blanks, dots,
    underscores and newlines next to the substituted values. *)
Definition stock_chunks (windows : bool)
    (revision build_name architecture package : string)
    (timefailarg ignoreloops seed : string) : list (string * ascii) := [
  (if windows then
     "@echo off" +:+ LF +:+ "rem Autogenerated by LiteX / git:"
   else "# Autogenerated by LiteX / git:", " "%char);
  (revision, "010"%char);
  (if windows then LF +:+ "yosys -l"
   else "set -e" +:+ LF +:+ "yosys -l", " "%char);
  (build_name, "."%char);
  ("rpt", " "%char);
  (build_name, "."%char);
  ("ys" +:+ fail_suffix windows +:+ LF +:+ "nextpnr-ice40 --json", " "%char);
  (build_name, "."%char);
  ("json --pcf", " "%char);
  (build_name, "."%char);
  ("pcf --asc", " "%char);
  (build_name, "."%char);
  ("txt     --pre-pack", " "%char);
  (build_name, "_"%char);
  ("pre_pack.py", " "%char);
  ("--" +:+ architecture, " "%char);
  ("--package", " "%char);
  (package, " "%char);
  (timefailarg, " "%char);
  (ignoreloops, " "%char);
  ("--seed", " "%char);
  (seed, if windows then " "%char else "010"%char);
  (if windows then "|| exit /b" +:+ LF +:+ "icepack -s"
   else "icepack -s", " "%char);
  (build_name, "."%char);
  ("txt", " "%char);
  (build_name, "."%char)
].

End ScriptSpec.

(** ** Searching a text *)

(** [s.startswith(p)] *)
Fixpoint is_prefix (p s : string) : bool :=
  match p with
  | "" => true
  | String a p' =>
      match s with
      | "" => false
      | String b s' => bool_decide (a = b) && is_prefix p' s'
      end
  end.

(** [needle in hay] *)
Fixpoint contains (needle hay : string) : bool :=
  is_prefix needle hay
  || match hay with
     | "" => false
     | String _ hay' => contains needle hay'
     end.

(** [c in s] for one character. *)
Fixpoint has_char (c : ascii) (s : string) : bool :=
  match s with
  | "" => false
  | String a s' => bool_decide (a = c) || has_char c s'
  end.

(** A text cut at chosen characters: every piece is followed by the
    character it was cut at, and the last piece ends the text. *)
Fixpoint chunks_join (chunks : list (string * ascii)) (last : string)
  : string :=
  match chunks with
  | [] => last
  | (piece, c) :: chunks' => piece +:+ String c (chunks_join chunks' last)
  end.

(** ** The working directory across a statement *)

(** [os.path.isabs] on a POSIX host. *)
Definition is_absolute (path : string) : bool :=
  match path with
  | String "/" _ => true
  | _ => false
  end.

(** The statement ends in the directory it started in, whether it returns or
    raises. *)
Definition keeps_cwd {A} (m : M A) : Prop :=
  ∀ w, cwd (m w).2 = cwd w.

(** The statement ends in [home] when it returns and in the directory it
    started in when it raises. *)
Definition returns_home {A} (home : string) (m : M A) : Prop :=
  ∀ w, match (m w).1 with
       | Ok _ => cwd (m w).2 = home
       | Raise _ => cwd (m w).2 = cwd w
       end.

(** ** What the module writes for synthesis *)

Module YosysScriptSpec.

(** The keyword arguments every line of the synthesis template is rendered
    with. *)
Definition yosys_kwargs (platform : Platform)
    (build_name synth_opts : string) : list (string * string) := [
  ("build_name", build_name);
  ("read_files", _yosys_import_sources platform);
  ("synth_opts", synth_opts)].

(** The lines of the module's own synthesis template, rendered. *)
Definition stock_lines (platform : Platform)
    (build_name synth_opts : string) : list string := [
  "verilog_defaults -push";
  "verilog_defaults -add -defer";
  _yosys_import_sources platform;
  "verilog_defaults -pop";
  "attrmap -tocase keep -imap keep=" +:+ DQ +:+ "true" +:+ DQ
    +:+ " keep=1 -imap keep=" +:+ DQ +:+ "false" +:+ DQ
    +:+ " keep=0 -remove keep=0";
  "synth_ice40 " +:+ synth_opts +:+ " -json " +:+ build_name
    +:+ ".json -top " +:+ build_name +:+ " -dsp"
].

End YosysScriptSpec.

(** ** What a statement leaves alone *)



(** ** The worlds a build goes through *)

(** The world after [os.makedirs(build_dir)] and [os.chdir(build_dir)]. *)
Definition entered (build_dir : string) (w : World) : World :=
  set_cwd (resolve (cwd w) build_dir)
    (set_dirs ({[resolve (cwd w) build_dir]} ∪ dirs w) w).

(** The world after a file is written from the current directory. *)
Definition written (filename contents : string) (w : World) : World :=
  set_files (<[resolve (cwd w) filename := contents]> (files w)) w.

(** The world after the verilog file is written and registered as a source. *)
Definition with_verilog (design : Elaborated) (build_dir build_name : string)
    (w : World) : World :=
  let w1 := written (build_name +:+ ".v") (v_text design)
              (entered build_dir w) in
  set_platform
    {| device := device (platform w1);
       verilog_include_paths := verilog_include_paths (platform w1);
       sources := sources (platform w1)
                    ++ [(build_name +:+ ".v", "verilog", "work")] |} w1.

(** The world after the constraint files and the synthesis script of the
    module's own template are written. *)
Definition with_synthesis (design : Elaborated)
    (build_dir build_name synth_opts pcf pre_pack : string) (w : World)
  : World :=
  let w3 := written (build_name +:+ "_pre_pack.py") pre_pack
              (written (build_name +:+ ".pcf") pcf
                 (with_verilog design build_dir build_name w)) in
  written (build_name +:+ ".ys")
    (join LF (YosysScriptSpec.stock_lines (platform w3) build_name synth_opts))
    w3.

(** The name of the build script on the host. *)
Definition script_name (env : Env) (build_name : string) : string :=
  "build_" +:+ build_name +:+ (if on_windows env then ".bat" else ".sh").

(** The world after the build script of the module's own template is
    written. *)
Definition with_script (env : Env) (build_name architecture package : string)
    (timingstrict ignoreloops : bool) (seed : Z) (w : World) : World :=
  written (script_name env build_name)
    (ScriptSpec.script_text (on_windows env) (get_litex_git_revision env)
       (ScriptSpec.stock_lines build_name architecture package
          timingstrict ignoreloops seed)) w.

(** * Properties *)

(** ** Strings *)

Section StringFacts.

Implicit Types s t u : string.

Lemma str_app_cons c s t : String c s +:+ t = String c (s +:+ t).
Proof. reflexivity. Qed.

Lemma str_app_nil_l s : "" +:+ s = s.
Proof. reflexivity. Qed.

Lemma str_app_nil_r s : s +:+ "" = s.
Proof. induction s as [|c s IH]; [done|]. by rewrite str_app_cons, IH. Qed.

Lemma str_app_assoc s t u : (s +:+ t) +:+ u = s +:+ t +:+ u.
Proof.
  induction s as [|c s IH]; [done|]. by rewrite !str_app_cons, IH.
Qed.

End StringFacts.

(** ** Dictionaries *)

Section DictFacts.

Context `{EqDecision K} {V : Type}.
Implicit Types (d : list (K * V)) (k : K) (v : V).

Lemma dict_get_None d k : dict_get d k = None ↔ k ∉ d.*1.
Proof.
  induction d as [|[k' v'] d IH]; simpl.
  - split; [intros _; apply not_elem_of_nil | done].
  - rewrite not_elem_of_cons. case_decide; subst.
    + split; [done | intros [? _]; done].
    + rewrite IH. split; [by split | by intros [_ ?]].
Qed.

Lemma dict_get_set_eq d k v : dict_get (dict_set d k v) k = Some v.
Proof.
  induction d as [|[k' v'] d IH]; simpl.
  - by rewrite decide_True.
  - case_decide; simpl; [by rewrite decide_True|]. by rewrite decide_False.
Qed.

Lemma dict_get_set_ne d k k' v :
  k ≠ k' → dict_get (dict_set d k v) k' = dict_get d k'.
Proof.
  intros Hne. induction d as [|[k0 v0] d IH]; simpl.
  - by rewrite decide_False.
  - case_decide; simpl; subst.
    + by rewrite !decide_False.
    + case_decide; [done | apply IH].
Qed.

(** Re-assigning the value a key already has leaves the dict as it is. *)
Lemma dict_set_same d k v : dict_get d k = Some v → dict_set d k v = d.
Proof.
  induction d as [|[k' v'] d IH]; simpl; [done|].
  case_decide; subst; [by intros [= ->] | intros ?; f_equal; auto].
Qed.

(** Assignment keeps the order of the keys; a new key goes last. *)
Lemma dict_set_keys d k v :
  (dict_set d k v).*1 = if decide (k ∈ d.*1) then d.*1 else d.*1 ++ [k].
Proof.
  induction d as [|[k' v'] d IH]; csimpl; [done|].
  destruct (decide (k' = k)) as [->|Hk]; csimpl.
  - rewrite decide_True; [done | apply list_elem_of_here].
  - rewrite IH. destruct (decide (k ∈ d.*1)) as [Hin|Hin].
    + rewrite decide_True; [done | by apply list_elem_of_further].
    + rewrite decide_False; [done|].
      intros [->|?]%elem_of_cons; done.
Qed.

End DictFacts.

(** ** Device identifiers *)

Lemma parse_device_fields device f a p :
  split "-" device = [f; a; p] →
  parse_device device =
    if negb (mem f ["ice40"]) then
      Raise (ValueError ("Unknown device family " +:+ f))
    else if negb (mem a packages.*1) then
      Raise (ValueError ("Invalid device architecture " +:+ a))
    else match dict_get packages a with
         | None => Raise (KeyError a)
         | Some pkgs =>
             if negb (mem p pkgs) then
               Raise (ValueError ("Invalid device package " +:+ p))
             else Ok (f, a, p)
         end.
Proof. unfold parse_device. by intros ->. Qed.

Lemma parse_device_arity device :
  length (split "-" device) ≠ 3 →
  ∃ msg, parse_device device = Raise (ValueError msg).
Proof.
  unfold parse_device.
  destruct (split "-" device) as [|f [|a [|p [|x l]]]]; simpl; intros ?;
    try done; eauto.
Qed.

(** Every failure of the parser is a [ValueError]. *)
Lemma parse_device_raises device e :
  parse_device device = Raise e → ∃ msg, e = ValueError msg.
Proof.
  destruct (decide (length (split "-" device) = 3)) as [Hlen|Hlen].
  - destruct (split "-" device) as [|f [|a [|p [|x l]]]] eqn:Hs; try done.
    rewrite (parse_device_fields _ _ _ _ Hs).
    destruct (mem f ["ice40"]); cbn [negb]; [|intros [= <-]; eauto].
    destruct (mem a packages.*1) eqn:Ha; cbn [negb]; [|intros [= <-]; eauto].
    destruct (dict_get packages a) as [pkgs|] eqn:Hget.
    + destruct (mem p pkgs); cbn [negb]; [done | intros [= <-]; eauto].
    + apply dict_get_None in Hget. by apply bool_decide_eq_true in Ha.
  - destruct (parse_device_arity device Hlen) as [msg ->].
    intros [= <-]; eauto.
Qed.

(** C2. A device string [family-architecture-package] whose family is
    supported, whose architecture is a key of the package table and whose
    package is in that architecture's list parses to the three fields as
    they are; a string that does not split on hyphens into exactly three
    fields, or whose family, architecture or package is unknown, fails with
    a [ValueError], the module's validation error, and the parser fails in no
    other way. *)
Theorem parse_device_valid_or_ValueError :
  (∀ family architecture package pkgs,
     family ∈ ["ice40"] →
     dict_get packages architecture = Some pkgs →
     package ∈ pkgs →
     parse_device (family +:+ "-" +:+ architecture +:+ "-" +:+ package)
       = Ok (family, architecture, package))
  ∧ (∀ device,
       length (split "-" device) ≠ 3
       ∨ (∃ f a p, split "-" device = [f; a; p]
            ∧ (f ∉ ["ice40"]
               ∨ dict_get packages a = None
               ∨ ∃ pkgs, dict_get packages a = Some pkgs ∧ p ∉ pkgs)) →
       ∃ msg, parse_device device = Raise (ValueError msg))
  ∧ (∀ device e, parse_device device = Raise e → ∃ msg, e = ValueError msg).
Proof.
  split; [|split; [|apply parse_device_raises]].
  - intros family architecture package pkgs Hf Ha Hp.
    apply list_elem_of_singleton in Hf as ->.
    unfold packages in Ha. cbn [dict_get] in Ha.
    repeat match type of Ha with
           | context [decide (?k = architecture)] =>
               destruct (decide (k = architecture)) as [<-|_];
               [injection Ha as <-;
                repeat (apply elem_of_cons in Hp as [->|Hp];
                        [vm_compute; reflexivity|]);
                by apply elem_of_nil in Hp|]
           end.
    done.
  - intros device [Hlen|(f & a & p & Hs & Hbad)].
    { by apply parse_device_arity. }
    rewrite (parse_device_fields _ _ _ _ Hs). unfold mem.
    destruct Hbad as [Hf|[Ha|(pkgs & Ha & Hp)]].
    + rewrite bool_decide_eq_false_2 by done. cbn [negb]; eauto.
    + case_bool_decide; cbn [negb]; [|eauto].
      apply dict_get_None in Ha.
      rewrite (bool_decide_eq_false_2 _ Ha). cbn [negb]; eauto.
    + case_bool_decide; cbn [negb]; [|eauto]. rewrite Ha.
      assert (a ∈ packages.*1) as Hin.
      { destruct (decide (a ∈ packages.*1)) as [?|Hn]; [done|].
        apply dict_get_None in Hn. congruence. }
      rewrite (bool_decide_eq_true_2 _ Hin). cbn [negb].
      rewrite (bool_decide_eq_false_2 _ Hp). cbn [negb]; eauto.
Qed.

Lemma parse_device_valid_or_ValueError_witness :
  parse_device "ice40-up5k-sg48" = Ok ("ice40", "up5k", "sg48")
  ∧ (∃ msg, parse_device "ice40-up5k" = Raise (ValueError msg))
  ∧ (∃ msg, parse_device "ice40-up5k-qn32" = Raise (ValueError msg)).
Proof.
  split; [|split].
  - apply (proj1 parse_device_valid_or_ValueError "ice40" "up5k" "sg48"
             ["sg48"; "uwg30"]).
    + apply list_elem_of_here.
    + reflexivity.
    + apply list_elem_of_here.
  - apply (proj1 (proj2 parse_device_valid_or_ValueError) "ice40-up5k").
    left. vm_compute. intros H. discriminate H.
  - apply (proj1 (proj2 parse_device_valid_or_ValueError) "ice40-up5k-qn32").
    right. exists "ice40", "up5k", "qn32". split; [reflexivity|].
    right; right. exists ["sg48"; "uwg30"]. split; [reflexivity|].
    intros H. apply elem_of_cons in H as [H|H]; [discriminate H|].
    apply elem_of_cons in H as [H|H]; [discriminate H|].
    by apply elem_of_nil in H.
Defined.

(** ** IO constraints *)

Section Pcf.

Import PcfSpec.

Lemma unlines_app ls1 ls2 : unlines (ls1 ++ ls2) = unlines ls1 +:+ unlines ls2.
Proof.
  induction ls1 as [|l ls1 IH]; [done|].
  cbn [app unlines]. by rewrite IH, !str_app_assoc.
Qed.

Lemma build_pcf_unfold named_sc named_pc :
  _build_pcf named_sc named_pc =
    r ← for_each named_sc pcf_step "";
    Ok (match named_pc with
        | [] => r
        | _ => r +:+ LF +:+ join (LF +:+ LF) named_pc
        end).
Proof.
  reflexivity.
Qed.

(** The inner loop over [enumerate(pins)] writes the indexed lines. *)
Lemma indexed_loop sig (f : nat → nat) pins r :
  fold_left (λ r '(bit, pin),
      r +:+ "set_io " +:+ sig +:+ "[" +:+ pretty bit +:+ "] " +:+ pin +:+ LF)
    (imap (λ i x, (f i, x)) pins) r
  = r +:+ unlines (imap (λ bit pin,
      "set_io " +:+ sig +:+ "[" +:+ pretty (f bit) +:+ "] " +:+ pin) pins).
Proof.
  revert f r. induction pins as [|pin pins IH]; intros f r.
  - by rewrite str_app_nil_r.
  - cbn [imap fold_left unlines].
    rewrite (IH (f ∘ S)). by rewrite !str_app_assoc.
Qed.

Lemma pcf_step_lines sc r :
  has_pins sc → pcf_step sc r = Ok (r +:+ unlines (sig_lines sc)).
Proof.
  destruct sc as [[[sig pins] others] resname]. unfold has_pins; simpl.
  destruct pins as [|p1 [|p2 pins]]; intros Hpins; [done| |].
  - change (Nat.ltb 1 (length [p1])) with false. cbv iota.
    change (getitem [p1] 0) with (Ok p1). cbn [mbind result_bind bind unlines].
    by rewrite !str_app_assoc, str_app_nil_r.
  - unfold pcf_step, enumerate, sig_lines.
    change (Nat.ltb 1 (length (p1 :: p2 :: pins))) with true. cbv iota.
    by rewrite (indexed_loop sig id).
Qed.

Lemma pcf_step_no_pins sig others resname r :
  pcf_step (sig, [], others, resname) r
    = Raise (IndexError "list index out of range").
Proof. reflexivity. Qed.

Lemma pcf_loop_lines named_sc r :
  Forall has_pins named_sc →
  for_each named_sc pcf_step r
    = Ok (r +:+ unlines (concat (sig_lines <$> named_sc))).
Proof.
  intros Hall. revert r.
  induction Hall as [|sc scs Hsc _ IH]; intros r.
  - by rewrite str_app_nil_r.
  - cbn [for_each]. rewrite (pcf_step_lines _ _ Hsc). cbn [bind].
    rewrite IH. csimpl. by rewrite unlines_app, str_app_assoc.
Qed.

Lemma pcf_loop_no_pins named_sc r :
  Exists (λ sc, sc.1.1.2 = []) named_sc →
  for_each named_sc pcf_step r = Raise (IndexError "list index out of range").
Proof.
  revert r. induction named_sc as [|sc scs IH]; intros r Hex.
  - by apply Exists_nil in Hex.
  - cbn [for_each].
    destruct (decide (sc.1.1.2 = [])) as [Hnil|Hne].
    + destruct sc as [[[sig pins] others] resname]; simpl in Hnil; subst.
      by rewrite pcf_step_no_pins.
    + rewrite (pcf_step_lines sc r Hne). cbn [bind]. apply IH.
      apply Exists_cons in Hex as [?|?]; done.
Qed.

Lemma build_pcf_text named_sc named_pc :
  Forall has_pins named_sc →
  _build_pcf named_sc named_pc
    = Ok (unlines (concat (sig_lines <$> named_sc)) +:+ raw_block named_pc).
Proof.
  intros Hall. rewrite build_pcf_unfold, (pcf_loop_lines _ _ Hall).
  cbn [mbind result_bind bind]. rewrite str_app_nil_l.
  destruct named_pc; [by rewrite str_app_nil_r | done].
Qed.

End Pcf.

(** C4. For signal constraints that each bind at least one pin, the emitter
    writes, signal after signal in input order, the lines of each signal: for
    a signal with N > 1 pins the N lines [set_io name[bit] pin] with the bits
    0..N-1 in the order of the pins, for a signal with one pin the single
    line [set_io name pin]; the raw platform constraints follow as they are,
    after an empty line, only when there are some, in their order and with
    their duplicates. *)
Theorem build_pcf_lines named_sc named_pc :
  Forall PcfSpec.has_pins named_sc →
  _build_pcf named_sc named_pc
    = Ok (PcfSpec.unlines (concat (PcfSpec.sig_lines <$> named_sc))
          +:+ PcfSpec.raw_block named_pc)
  ∧ (∀ sig pins others resname,
       1 < length pins →
       length (PcfSpec.sig_lines (sig, pins, others, resname)) = length pins
       ∧ ∀ bit pin, pins !! bit = Some pin →
           PcfSpec.sig_lines (sig, pins, others, resname) !! bit
             = Some ("set_io " +:+ sig +:+ "[" +:+ pretty bit +:+ "] " +:+ pin))
  ∧ (∀ sig pin others resname,
       PcfSpec.sig_lines (sig, [pin], others, resname)
         = ["set_io " +:+ sig +:+ " " +:+ pin])
  ∧ PcfSpec.raw_block [] = ""
  ∧ (∀ pc pcs, PcfSpec.raw_block (pc :: pcs)
               = LF +:+ join (LF +:+ LF) (pc :: pcs)).
Proof.
  intros Hall. split; [by apply build_pcf_text|split; [|done]].
  intros sig pins others resname Hlen.
  assert (PcfSpec.sig_lines (sig, pins, others, resname)
          = imap (λ bit pin,
              "set_io " +:+ sig +:+ "[" +:+ pretty bit +:+ "] " +:+ pin) pins)
    as ->.
  { destruct pins as [|p1 [|p2 pins]]; simpl in Hlen; [lia..|done]. }
  split; [apply length_imap|].
  intros bit pin Hbit. by rewrite list_lookup_imap, Hbit.
Qed.

Lemma build_pcf_lines_witness :
  _build_pcf [("led", ["A1"], [], "user_led");
              ("data", ["B1"; "B2"; "B3"], [], "data")]
             ["set_frequency clk 12"; "set_frequency clk 12"]
  = Ok ("set_io led A1" +:+ LF +:+ "set_io data[0] B1" +:+ LF +:+
        "set_io data[1] B2" +:+ LF +:+ "set_io data[2] B3" +:+ LF +:+ LF +:+
        "set_frequency clk 12" +:+ LF +:+ LF +:+ "set_frequency clk 12").
Proof.
  refine (eq_trans (proj1 (build_pcf_lines _ _ _)) _).
  - repeat constructor; discriminate.
  - reflexivity.
Defined.

(** C9. The emitter is partial: when some signal constraint has no pin it
    indexes the first pin of an empty list and raises [IndexError], writing
    nothing; it returns a text exactly when every signal constraint has at
    least one pin. *)
Theorem build_pcf_partial named_sc named_pc :
  (Exists (λ sc, sc.1.1.2 = []) named_sc →
     _build_pcf named_sc named_pc
       = Raise (IndexError "list index out of range"))
  ∧ (Forall PcfSpec.has_pins named_sc ↔
       ∃ r, _build_pcf named_sc named_pc = Ok r).
Proof.
  split; [|split].
  - intros Hex. by rewrite build_pcf_unfold, (pcf_loop_no_pins _ _ Hex).
  - intros Hall. rewrite (build_pcf_text _ named_pc Hall). eauto.
  - intros [r Hr]. apply Forall_forall. intros sc Hin Hnil.
    assert (Exists (λ sc, sc.1.1.2 = []) named_sc) as Hex.
    { apply Exists_exists. eauto. }
    rewrite build_pcf_unfold, (pcf_loop_no_pins _ _ Hex) in Hr. done.
Qed.

Lemma build_pcf_partial_witness :
  _build_pcf [("led", ["A1"], [], "user_led"); ("nc", [], [], "nc")] []
    = Raise (IndexError "list index out of range")
  ∧ ∃ r, _build_pcf [("led", ["A1"], [], "user_led")] [] = Ok r.
Proof.
  split.
  - apply (proj1 (build_pcf_partial _ _)).
    apply Exists_cons_tl, Exists_cons_hd. reflexivity.
  - apply (proj1 (proj2 (build_pcf_partial _ _))).
    repeat constructor; discriminate.
Defined.

(** ** Timing constraints *)

Section PrePack.

Variable env : Env.
Variable vns : Namespace.

Lemma truediv_1e3_nonzero period :
  period ≠ Q2Qc 0 → truediv_1e3 period = Ok (Q2Qc 1000 / period)%Qc.
Proof. intros Hp. unfold truediv_1e3. by rewrite decide_False. Qed.

Lemma pre_pack_lines clocks :
  Forall (λ cp : Signal * Qc, cp.2 ≠ Q2Qc 0) clocks →
  _build_pre_pack env vns clocks
    = Ok (PcfSpec.unlines (PrePackSpec.clock_line env vns <$> clocks)).
Proof.
  intros Hall. unfold _build_pre_pack.
  match goal with
  | |- for_each _ ?body _ = _ =>
      enough (∀ r, for_each clocks body r
                = Ok (r +:+ PcfSpec.unlines
                              (PrePackSpec.clock_line env vns <$> clocks)))
        as Hloop by (by rewrite Hloop)
  end.
  induction Hall as [|[clk period] cps Hp _ IH]; intros r.
  - by rewrite str_app_nil_r.
  - cbn [for_each]. simpl in Hp. rewrite (truediv_1e3_nonzero _ Hp).
    cbn [mbind result_bind bind]. rewrite IH. csimpl.
    unfold PrePackSpec.clock_line. simpl. by rewrite !str_app_assoc.
Qed.

Lemma pre_pack_zero clocks clk :
  (clk, Q2Qc 0) ∈ clocks →
  ∃ msg, _build_pre_pack env vns clocks = Raise (ZeroDivisionError msg).
Proof.
  unfold _build_pre_pack.
  match goal with
  | |- _ → ∃ msg, for_each _ ?body _ = _ =>
      enough (∀ r, (clk, Q2Qc 0) ∈ clocks →
                ∃ msg, for_each clocks body r = Raise (ZeroDivisionError msg))
        as Hloop by apply Hloop
  end.
  induction clocks as [|[c p] cps IH]; intros r Hin.
  - by apply elem_of_nil in Hin.
  - cbn [for_each]. unfold truediv_1e3 at 1.
    destruct (decide (p = Q2Qc 0)) as [->|Hp]; [simpl; eauto|].
    cbn [mbind result_bind bind]. apply IH.
    apply elem_of_cons in Hin as [Heq|?]; [|done].
    injection Heq as _ Hz. by destruct Hp.
Qed.

End PrePack.

(** ** Period constraints *)

Section PeriodConstraint.

Variable env : Env.

Lemma add_period_constraint_unfold clk period w :
  add_period_constraint env clk period w =
    match dict_get (clocks w) clk with
    | Some stored =>
        if bool_decide (period ≠ stored) then
          (Raise (ValueError ("Clock already constrained to "
                              +:+ float_2f env stored
                              +:+ "ns, new constraint to "
                              +:+ float_2f env period +:+ "ns")),
           mark_keep clk w)
        else
          (Ok (), set_clocks (dict_set (clocks w) clk period) (mark_keep clk w))
    | None =>
        (Ok (), set_clocks (dict_set (clocks w) clk period) (mark_keep clk w))
    end.
Proof.
  unfold add_period_constraint, mbind, M_bind, modify, get_world; simpl.
  destruct (dict_get (clocks w) clk) as [stored|]; [|done].
  by case_bool_decide.
Qed.

Lemma mark_keep_has_keep clk w : "keep" ∈ attr (mark_keep clk w) !!! clk.
Proof.
  unfold mark_keep; simpl. rewrite lookup_total_insert_eq.
  by apply elem_of_union_l, elem_of_singleton.
Qed.

Lemma mark_keep_twice clk w : mark_keep clk (mark_keep clk w) = mark_keep clk w.
Proof.
  destruct w as [c d f p a k]. unfold mark_keep, set_attr; simpl. f_equal.
  rewrite lookup_total_insert_eq, insert_insert_eq. f_equal.
  by rewrite (assoc_L (∪)), (idemp_L (∪)).
Qed.

Lemma add_period_constraint_ok clk period w w' :
  add_period_constraint env clk period w = (Ok (), w') →
  w' = set_clocks (dict_set (clocks w) clk period) (mark_keep clk w)
  ∧ dict_get (clocks w') clk = Some period.
Proof.
  rewrite add_period_constraint_unfold. intros Hadd.
  assert (w' = set_clocks (dict_set (clocks w) clk period) (mark_keep clk w))
    as ->.
  { destruct (dict_get (clocks w) clk); [|congruence].
    case_bool_decide; congruence. }
  split; [done|]. simpl. apply dict_get_set_eq.
Qed.

Lemma add_period_constraint_again clk period w :
  dict_get (clocks w) clk = Some period →
  add_period_constraint env clk period w = (Ok (), mark_keep clk w).
Proof.
  intros Hget. rewrite add_period_constraint_unfold, Hget.
  rewrite bool_decide_eq_false_2 by (by intros []).
  rewrite (dict_set_same _ _ _ Hget). by destruct w.
Qed.

Lemma add_period_constraint_conflict clk period stored w :
  dict_get (clocks w) clk = Some stored →
  period ≠ stored →
  ∃ msg, add_period_constraint env clk period w
         = (Raise (ValueError msg), mark_keep clk w).
Proof.
  intros Hget Hne. rewrite add_period_constraint_unfold, Hget.
  rewrite bool_decide_eq_true_2 by done. eauto.
Qed.

Lemma add_period_constraint_raises clk period w e w' :
  add_period_constraint env clk period w = (Raise e, w') →
  w' = mark_keep clk w.
Proof.
  rewrite add_period_constraint_unfold.
  destruct (dict_get (clocks w) clk); [|done].
  case_bool_decide; congruence.
Qed.

End PeriodConstraint.

(** C3. Once a clock has been constrained, constraining it again with the
    same period succeeds and changes nothing, the stored period included;
    constraining it with a different period fails with a [ValueError], the
    module's constraint-conflict error, and the clock map, with the period
    stored for the clock, stays as it was. *)
Theorem add_period_constraint_idempotent_atomic env clk period w w1 :
  add_period_constraint env clk period w = (Ok (), w1) →
  (add_period_constraint env clk period w1 = (Ok (), w1)
   ∧ dict_get (clocks w1) clk = Some period)
  ∧ ∀ period', period' ≠ period →
      ∃ msg w2,
        add_period_constraint env clk period' w1 = (Raise (ValueError msg), w2)
        ∧ clocks w2 = clocks w1
        ∧ dict_get (clocks w2) clk = Some period.
Proof.
  intros Hadd. apply add_period_constraint_ok in Hadd as [-> Hget].
  split; [split; [|done]|].
  - rewrite (add_period_constraint_again _ _ _ _ Hget). f_equal.
    change (mark_keep clk (set_clocks ?c ?x))
      with (set_clocks c (mark_keep clk x)).
    by rewrite mark_keep_twice.
  - intros period' Hne.
    destruct (add_period_constraint_conflict env _ _ _ _ Hget Hne) as [msg ->].
    by exists msg, (mark_keep clk
                     (set_clocks (dict_set (clocks w) clk period)
                        (mark_keep clk w))).
Qed.

Lemma add_period_constraint_idempotent_atomic_witness :
  let env := sample_env "linux" true 0 in
  let w1 := set_clocks [(Sig 0, Q2Qc 10)] (mark_keep (Sig 0) (sample_world "")) in
  add_period_constraint env (Sig 0) (Q2Qc 10) w1 = (Ok (), w1)
  ∧ ∃ msg w2,
      add_period_constraint env (Sig 0) (Q2Qc 20) w1
        = (Raise (ValueError msg), w2)
      ∧ dict_get (clocks w2) (Sig 0) = Some (Q2Qc 10).
Proof.
  intros env w1.
  destruct (add_period_constraint_idempotent_atomic env (Sig 0) (Q2Qc 10)
              (sample_world "") w1) as [[Hsame _] Hconflict].
  - reflexivity.
  - split; [exact Hsame|].
    destruct (Hconflict (Q2Qc 20)) as (msg & w2 & Hw2 & _ & Hget).
    + intros H. discriminate H.
    + exists msg, w2. split; [exact Hw2 | exact Hget].
Defined.

(** C10. The [keep] attribute is added to the clock signal before the period
    is checked: when the call fails on a period conflict, the signal's
    attribute set already holds [keep] in the world the error leaves behind,
    which differs from the world before the call in that attribute only; the
    clock map is unchanged. *)
Theorem add_period_constraint_keep_on_error env clk period w :
  (∀ e w', add_period_constraint env clk period w = (Raise e, w') →
     "keep" ∈ attr w' !!! clk
     ∧ clocks w' = clocks w
     ∧ w' = mark_keep clk w)
  ∧ (∀ stored, dict_get (clocks w) clk = Some stored → period ≠ stored →
       ∃ msg, add_period_constraint env clk period w
              = (Raise (ValueError msg), mark_keep clk w)).
Proof.
  split.
  - intros e w' ->%add_period_constraint_raises.
    split; [apply mark_keep_has_keep | done].
  - intros stored. apply add_period_constraint_conflict.
Qed.

Lemma add_period_constraint_keep_on_error_witness :
  let env := sample_env "linux" true 0 in
  let w := set_clocks [(Sig 0, Q2Qc 10)] (sample_world "") in
  attr w !!! Sig 0 = (∅ : gset string)
  ∧ ∃ msg w',
      add_period_constraint env (Sig 0) (Q2Qc 20) w = (Raise (ValueError msg), w')
      ∧ "keep" ∈ attr w' !!! Sig 0
      ∧ clocks w' = clocks w.
Proof.
  intros env w. split; [reflexivity|].
  destruct (add_period_constraint_keep_on_error env (Sig 0) (Q2Qc 20) w)
    as [Herr Hconflict].
  destruct (Hconflict (Q2Qc 10)) as [msg Hmsg].
  - reflexivity.
  - intros H. discriminate H.
  - exists msg, (mark_keep (Sig 0) w). split; [exact Hmsg|].
    destruct (Herr _ _ Hmsg) as (Hkeep & Hclocks & _).
    split; [exact Hkeep | exact Hclocks].
Defined.

(** C5. For every name resolution and every clock map the emitter writes one
    [ctx.addClock] line per constrained clock, with the resolved name of the
    clock and the frequency 1000 / period (a period of 10 gives 100), in the
    order of the map; the quotient exists for every period but zero, where
    the division raises. The order of the map is the order in which
    [add_period_constraint] first constrained each clock: a successful call
    leaves the keys in place and puts a new clock last. *)
Theorem build_pre_pack_clock_lines env vns clks :
  Forall (λ cp : Signal * Qc, cp.2 ≠ Q2Qc 0) clks →
  _build_pre_pack env vns clks
    = Ok (PcfSpec.unlines (PrePackSpec.clock_line env vns <$> clks))
  ∧ length (PrePackSpec.clock_line env vns <$> clks) = length clks
  ∧ (∀ clk, PrePackSpec.clock_line env vns (clk, Q2Qc 10)
            = "ctx.addClock(" +:+ DQ +:+ get_name vns clk +:+ DQ +:+ ", "
                +:+ float_str env (Q2Qc 100) +:+ ")")
  ∧ (∀ clk period w w',
       add_period_constraint env clk period w = (Ok (), w') →
       (clocks w').*1 = if decide (clk ∈ (clocks w).*1)
                        then (clocks w).*1
                        else (clocks w).*1 ++ [clk]).
Proof.
  intros Hnz. split; [by apply pre_pack_lines|].
  split; [apply length_fmap|]. split.
  - intros clk. unfold PrePackSpec.clock_line. simpl.
    replace (Q2Qc 1000 / Q2Qc 10)%Qc with (Q2Qc 100); [done|].
    by apply Qc_is_canon.
  - intros clk period w w' [-> _]%add_period_constraint_ok. simpl.
    apply dict_set_keys.
Qed.

Lemma build_pre_pack_clock_lines_witness :
  let env := sample_env "linux" true 0 in
  let vns := {| get_name := λ s, "clk" +:+ pretty (duid s) |} in
  _build_pre_pack env vns [(Sig 1, Q2Qc 10); (Sig 0, Q2Qc (250 # 3))]
  = Ok ("ctx.addClock(" +:+ DQ +:+ "clk1" +:+ DQ +:+ ", 100/1)" +:+ LF +:+
        "ctx.addClock(" +:+ DQ +:+ "clk0" +:+ DQ +:+ ", 12/1)" +:+ LF).
Proof.
  intros env vns.
  refine (eq_trans (proj1 (build_pre_pack_clock_lines env vns _ _)) _).
  - repeat constructor; intros H; discriminate H.
  - reflexivity.
Defined.

(** ** Synthesis script *)

Section Yosys.

Import YosysSpec.

Lemma include_loop paths acc :
  fold_left (λ includes path, includes +:+ " -I" +:+ path) paths acc
    = acc +:+ include_flags paths.
Proof.
  revert acc. induction paths as [|path paths IH]; intros acc; simpl.
  - by rewrite str_app_nil_r.
  - by rewrite IH, !str_app_assoc.
Qed.

Lemma reads_loop includes srcs (acc : list string) :
  fold_left (λ reads '(filename, language, library),
               let language :=
                 if decide (language = "systemverilog") then "verilog -sv"
                 else language in
               reads ++ ["read_" +:+ language +:+ includes +:+ " "
                           +:+ filename]) srcs acc
    = acc ++ ((λ src : string * string * string,
                 "read_" +:+ effective_language src.1.2 +:+ includes
                        +:+ " " +:+ src.1.1) <$> srcs).
Proof.
  revert acc. induction srcs as [|[[f l] lib] srcs IH]; intros acc; csimpl.
  - by rewrite app_nil_r.
  - by rewrite IH, <-app_assoc.
Qed.

End Yosys.

(** C8. The source-import block holds one [read_<language>] directive per
    source file, in input order and joined by newlines, each with one
    [-I<path>] flag per include-search path; the language [systemverilog] is
    written as [verilog -sv], every other language as it is. *)
Theorem yosys_import_sources_directives platform :
  _yosys_import_sources platform
    = join LF (YosysSpec.read_directive (verilog_include_paths platform)
                 <$> sources platform)
  ∧ length (YosysSpec.read_directive (verilog_include_paths platform)
              <$> sources platform) = length (sources platform)
  ∧ YosysSpec.effective_language "systemverilog" = "verilog -sv"
  ∧ (∀ language, language ≠ "systemverilog" →
       YosysSpec.effective_language language = language)
  ∧ YosysSpec.include_flags [] = ""
  ∧ (∀ path paths, YosysSpec.include_flags (path :: paths)
                   = " -I" +:+ path +:+ YosysSpec.include_flags paths).
Proof.
  split; [|split; [apply length_fmap|split; [done|split; [|done]]]].
  - unfold _yosys_import_sources.
    rewrite include_loop, reads_loop, str_app_nil_l. done.
  - intros language Hl. unfold YosysSpec.effective_language.
    by rewrite decide_False.
Qed.

Lemma yosys_import_sources_directives_witness :
  _yosys_import_sources
    {| device := "ice40-up5k-sg48";
       verilog_include_paths := ["rtl"; "ip/inc"];
       sources := [("core.sv", "systemverilog", "work");
                   ("top.v", "verilog", "work")] |}
  = "read_verilog -sv -Irtl -Iip/inc core.sv" +:+ LF
      +:+ "read_verilog -Irtl -Iip/inc top.v"
  ∧ YosysSpec.effective_language "verilog" = "verilog".
Proof.
  split.
  - refine (eq_trans (proj1 (yosys_import_sources_directives _)) _).
    reflexivity.
  - apply (proj1 (proj2 (proj2 (proj2
             (yosys_import_sources_directives
                {| device := ""; verilog_include_paths := [];
                   sources := [] |}))))).
    intros H. discriminate H.
Defined.

(** ** Templates *)

Section Format.

Variable kw : list (string * string).

Lemma bind_ok_inv {A B} (m : result A) (k : A → result B) b :
  bind m k = Ok b → ∃ a, m = Ok a ∧ k a = Ok b.
Proof. destruct m as [a|e]; [eauto | done]. Qed.

(** A template that renders leaves the scanner in plain text, so what
    follows it renders on its own. *)
Lemma format_go_app st s t r :
  format_go kw st s = Ok r →
  format_go kw st (s +:+ t)
    = bind (format_go kw InText t) (λ o, Ok (r +:+ o)).
Proof.
  revert st r. induction s as [|c s IH]; intros st r Hs.
  - destruct st; simplify_eq/=. rewrite str_app_nil_l.
    by destruct (format_go kw InText t).
  - rewrite str_app_cons. destruct st; simpl in *;
      repeat case_decide; repeat case_match; simplify_eq/=;
      repeat match goal with
      | H : bind _ _ = Ok _ |- _ =>
          apply bind_ok_inv in H as (? & ? & ?); simplify_eq/=
      end;
      try (erewrite IH by eassumption);
      try match goal with
      | H : field_value _ _ = _ |- _ => rewrite H; simpl
      end;
      try (erewrite IH by eassumption);
      destruct (format_go kw InText t); simpl;
      rewrite ?str_app_cons, ?str_app_assoc; done.
Qed.

Lemma format_app s t r :
  format s kw = Ok r →
  format (s +:+ t) kw = bind (format t kw) (λ o, Ok (r +:+ o)).
Proof. apply format_go_app. Qed.

End Format.

(** ** Build script *)

Section Script.

Import ScriptSpec.

Variable env : Env.
Variables build_name architecture package : string.
Variables timingstrict ignoreloops : bool.
Variable seed : Z.

Let kwargs (windows : bool) :=
  script_kwargs build_name architecture package timingstrict ignoreloops
    (fail_suffix windows) seed.

Lemma format_fail_stmt windows :
  format ("{fail_stmt}" +:+ LF) (kwargs windows)
    = Ok (fail_suffix windows +:+ LF).
Proof. reflexivity. Qed.

Lemma format_line_fail windows s line :
  format s (kwargs windows) = Ok line →
  format (s +:+ "{fail_stmt}" +:+ LF) (kwargs windows)
    = Ok (line +:+ fail_suffix windows +:+ LF).
Proof.
  intros Hs. by rewrite (format_app _ _ _ _ Hs), format_fail_stmt.
Qed.

(** The two flag placeholders, wherever a template line has them, are
    replaced by the flag or by nothing. *)
Lemma format_timefailarg windows before after rb ra :
  format before (kwargs windows) = Ok rb →
  format after (kwargs windows) = Ok ra →
  format (before +:+ "{timefailarg}" +:+ after) (kwargs windows)
    = Ok (rb +:+ (if negb timingstrict then "--timing-allow-fail" else "")
             +:+ ra).
Proof.
  intros Hb Ha. rewrite (format_app _ _ _ _ Hb).
  change (format ("{timefailarg}" +:+ after) (kwargs windows))
    with (bind (format after (kwargs windows))
            (λ o, Ok ((if negb timingstrict then "--timing-allow-fail" else "")
                        +:+ o))).
  by rewrite Ha.
Qed.

Lemma format_ignoreloops windows before after rb ra :
  format before (kwargs windows) = Ok rb →
  format after (kwargs windows) = Ok ra →
  format (before +:+ "{ignoreloops}" +:+ after) (kwargs windows)
    = Ok (rb +:+ (if ignoreloops then "--ignore-loops" else "") +:+ ra).
Proof.
  intros Hb Ha. rewrite (format_app _ _ _ _ Hb).
  change (format ("{ignoreloops}" +:+ after) (kwargs windows))
    with (bind (format after (kwargs windows))
            (λ o, Ok ((if ignoreloops then "--ignore-loops" else "") +:+ o))).
  by rewrite Ha.
Qed.

(** The loop over the template appends every rendered line with its suffix
    and a newline. *)
Lemma script_loop windows template lines acc :
  Forall2 (λ s line, format s (kwargs windows) = Ok line) template lines →
  for_each template (λ s script_contents,
      line ← format (s +:+ "{fail_stmt}" +:+ LF) (kwargs windows);
      Ok (script_contents +:+ line)) acc
    = Ok (acc +:+ PcfSpec.unlines
                    ((λ line, line +:+ fail_suffix windows) <$> lines)).
Proof.
  intros Hall. revert acc.
  induction Hall as [|s line template lines Hs _ IH]; intros acc.
  - by rewrite str_app_nil_r.
  - cbn [for_each]. rewrite (format_line_fail _ _ _ Hs).
    cbn [mbind result_bind bind]. rewrite IH. csimpl.
    by rewrite !str_app_assoc.
Qed.

Lemma suffix_empty (lines : list string) :
  (λ line, line +:+ "") <$> lines = lines.
Proof.
  induction lines as [|l ls IH]; [done|]. csimpl.
  by rewrite str_app_nil_r, IH.
Qed.

Lemma build_script_renders template lines w :
  Forall2 (λ s line, format s (kwargs (on_windows env)) = Ok line)
    template lines →
  _build_script env template build_name architecture package
      timingstrict ignoreloops seed w
    = let script_file :=
        "build_" +:+ build_name
          +:+ (if on_windows env then ".bat" else ".sh") in
      (Ok script_file,
       set_files (<[resolve (cwd w) script_file :=
                      script_text (on_windows env)
                        (get_litex_git_revision env) lines]> (files w)) w).
Proof.
  intros Hall. unfold _build_script, script_text.
  destruct (on_windows env) eqn:Hos.
  - unfold mbind at 1, M_bind, lift.
    rewrite (script_loop true _ _ _ Hall).
    unfold write_to_file, modify, mbind, M_bind, mret, M_ret. simpl.
    by rewrite !str_app_assoc.
  - unfold mbind at 1, M_bind, lift.
    rewrite (script_loop false _ _ _ Hall).
    unfold write_to_file, modify, mbind, M_bind, mret, M_ret. simpl.
    by rewrite !str_app_assoc, suffix_empty.
Qed.

End Script.

Lemma stock_template_renders build_name architecture package
    timingstrict ignoreloops fail_stmt seed :
  Forall2 (λ s line,
      format s (ScriptSpec.script_kwargs build_name architecture package
                  timingstrict ignoreloops fail_stmt seed) = Ok line)
    _build_template
    (ScriptSpec.stock_lines build_name architecture package
       timingstrict ignoreloops seed).
Proof.
  unfold _build_template, ScriptSpec.stock_lines.
  constructor; [reflexivity|].
  constructor; [|constructor; [reflexivity|constructor]].
  rewrite <-(str_app_nil_r (pretty seed)). reflexivity.
Qed.

(** C7. The branch is chosen once from the host platform. On the POSIX
    branch the script starts with the revision comment and [set -e], written
    once, and every rendered template line follows with an empty failure
    suffix; on the Windows/Cygwin branch the batch header has no [set -e] and
    every rendered template line is followed by [ || exit /b]. The text is
    written to [build_<build_name>] with extension [.sh] or [.bat], and that
    file name is returned. *)
Theorem build_script_os_branch env template build_name architecture package
    timingstrict ignoreloops seed lines w :
  let windows := mem (sys_platform env) ["win32"; "cygwin"] in
  let script_file :=
    "build_" +:+ build_name +:+ (if windows then ".bat" else ".sh") in
  Forall2 (λ s line,
      format s (ScriptSpec.script_kwargs build_name architecture package
                  timingstrict ignoreloops (ScriptSpec.fail_suffix windows)
                  seed) = Ok line) template lines →
  _build_script env template build_name architecture package
      timingstrict ignoreloops seed w
    = (Ok script_file,
       set_files (<[resolve (cwd w) script_file :=
                      ScriptSpec.script_text windows
                        (get_litex_git_revision env) lines]> (files w)) w)
  ∧ ScriptSpec.fail_suffix false = ""
  ∧ ScriptSpec.fail_suffix true = " || exit /b"
  ∧ (∀ revision ls,
       ScriptSpec.script_text false revision ls
         = "# Autogenerated by LiteX / git: " +:+ revision +:+ LF
             +:+ "set -e" +:+ LF +:+ PcfSpec.unlines ls)
  ∧ (∀ revision ls,
       ScriptSpec.script_text true revision ls
         = "@echo off" +:+ LF +:+ "rem Autogenerated by LiteX / git: "
             +:+ revision +:+ LF +:+ LF
             +:+ PcfSpec.unlines ((λ line, line +:+ " || exit /b") <$> ls)).
Proof.
  intros windows script_file Hall.
  split; [|done].
  apply (build_script_renders env _ _ _ _ _ _ _ _ w Hall).
Qed.

Lemma build_script_os_branch_witness :
  let w := sample_world "ice40-up5k-sg48" in
  (_build_script (sample_env "linux" true 0) _build_template
      "top" "up5k" "sg48" false false 1 w).1 = Ok "build_top.sh"
  ∧ (_build_script (sample_env "win32" true 0) _build_template
      "top" "up5k" "sg48" false false 1 w).1 = Ok "build_top.bat".
Proof.
  intros w. split.
  - refine (eq_trans (f_equal fst (proj1
      (build_script_os_branch (sample_env "linux" true 0) _build_template
         "top" "up5k" "sg48" false false 1 _ w _))) _).
    + apply stock_template_renders.
    + reflexivity.
  - refine (eq_trans (f_equal fst (proj1
      (build_script_os_branch (sample_env "win32" true 0) _build_template
         "top" "up5k" "sg48" false false 1 _ w _))) _).
    + apply stock_template_renders.
    + reflexivity.
Defined.

(** ** Searching a text *)

Section Search.

Implicit Types (f s t : string) (c : ascii).

Lemma contains_spec f s :
  contains f s = true ↔ ∃ a b, s = a +:+ f +:+ b.
Proof.
  assert (Hpre : ∀ f s, is_prefix f s = true ↔ ∃ b, s = f +:+ b).
  { clear. induction f as [|x f IH]; intros s; simpl.
    - split; [intros _; by exists s | done].
    - destruct s as [|y s]; [split; [done | by intros [b ?]]|].
      rewrite andb_true_iff, bool_decide_eq_true, IH. split.
      + intros [-> [b ->]]. by exists b.
      + intros [b Hb]. rewrite str_app_cons in Hb. injection Hb as -> ->.
        eauto. }
  induction s as [|y s IH]; simpl.
  - rewrite orb_false_r, Hpre. split.
    + intros [b Hb]. by exists "", b.
    + intros (a & b & Hab). destruct a; [by exists b|done].
  - rewrite orb_true_iff, Hpre, IH. split.
    + intros [[b Hb]|(a & b & ->)]; [by exists "", b|].
      by exists (String y a), b.
    + intros (a & b & Hab). destruct a as [|x a].
      * left. by exists b.
      * right. rewrite str_app_cons in Hab. injection Hab as -> ->. eauto.
Qed.

Lemma is_prefix_contains f s : is_prefix f s = true → contains f s = true.
Proof. intros Hp. destruct s; simpl in *; by rewrite Hp. Qed.

Lemma contains_cons f c s : contains f s = true → contains f (String c s) = true.
Proof. intros Hc. simpl. rewrite Hc. apply orb_true_r. Qed.

(** A text that holds a needle holds the needle without its first
    character. *)
Lemma contains_tail c f s :
  contains (String c f) s = true → contains f s = true.
Proof.
  rewrite !contains_spec. intros (a & b & ->).
  exists (a +:+ String c ""), b. by rewrite str_app_assoc.
Qed.

(** A needle without the character [c] does not reach across a [c]. *)
Lemma is_prefix_app_sep f c s t :
  has_char c f = false → is_prefix f (s +:+ String c t) = is_prefix f s.
Proof.
  revert s. induction f as [|x f IH]; intros s Hc; [done|].
  simpl in Hc. apply orb_false_iff in Hc as [Hx Hf].
  destruct s as [|y s].
  - rewrite str_app_nil_l. simpl. by rewrite Hx.
  - rewrite str_app_cons. simpl. by rewrite IH.
Qed.

Lemma contains_app_sep f c s t :
  has_char c f = false →
  contains f (s +:+ String c t) = contains f s || contains f t.
Proof.
  intros Hc. induction s as [|y s IH].
  - rewrite str_app_nil_l.
    change (contains f (String c t))
      with (is_prefix f ("" +:+ String c t) || contains f t).
    rewrite (is_prefix_app_sep _ _ _ _ Hc). simpl. by rewrite orb_false_r.
  - rewrite str_app_cons.
    change (contains f (String y (s +:+ String c t)))
      with (is_prefix f (String y s +:+ String c t)
            || contains f (s +:+ String c t)).
    rewrite (is_prefix_app_sep _ _ _ _ Hc), IH. simpl.
    by rewrite orb_assoc.
Qed.

Lemma contains_chunks f chunks last :
  forallb (λ ch : string * ascii, negb (has_char ch.2 f)) chunks = true →
  contains f (chunks_join chunks last)
    = existsb (λ ch : string * ascii, contains f ch.1) chunks
      || contains f last.
Proof.
  induction chunks as [|[piece c] chunks IH]; simpl; [done|].
  intros [Hc Hrest]%andb_true_iff. apply negb_true_iff in Hc.
  by rewrite (contains_app_sep _ _ _ _ Hc), IH, orb_assoc.
Qed.

(** A needle with a character the text lacks is not in the text. *)
Lemma contains_has_char f s c :
  has_char c f = true → has_char c s = false → contains f s = false.
Proof.
  intros Hf Hs. apply not_true_is_false. intros (a & b & ->)%contains_spec.
  assert (Happ : ∀ u v, has_char c (u +:+ v) = has_char c u || has_char c v).
  { clear. induction u as [|x u IH]; intros v; [done|].
    rewrite str_app_cons. simpl. by rewrite IH, orb_assoc. }
  rewrite !Happ, Hf, orb_true_r in Hs. done.
Qed.

End Search.

(** ** Decimal numerals *)

Section Numerals.

Variable c : ascii.
Hypothesis c_not_digit : is_digit c = false.
Hypothesis c_not_minus : c ≠ "-"%char.

Lemma pretty_N_char_digit (y : N) : is_digit (pretty_N_char y) = true.
Proof. unfold pretty_N_char. by repeat case_match. Qed.

Lemma pretty_N_go_chars (x : N) (s : string) :
  has_char c s = false → has_char c (pretty_N_go x s) = false.
Proof.
  revert s. induction (N.lt_wf_0 x) as [x _ IH]; intros s Hs.
  destruct (decide (0 < x)%N) as [Hx|Hx].
  - rewrite pretty_N_go_step by done. apply IH.
    + by apply N.div_lt.
    + simpl. rewrite Hs, orb_false_r. apply bool_decide_eq_false_2.
      intros Heq. pose proof (pretty_N_char_digit (x `mod` 10)) as Hd.
      rewrite Heq in Hd. congruence.
  - assert (x = 0%N) as -> by lia. by rewrite pretty_N_go_0.
Qed.

Lemma pretty_N_chars (x : N) : has_char c (pretty x) = false.
Proof.
  unfold pretty, pretty_N. case_decide.
  - simpl. rewrite orb_false_r. apply bool_decide_eq_false_2.
    intros <-. done.
  - by apply pretty_N_go_chars.
Qed.

(** [str(seed)] holds digits and at most a sign. *)
Lemma pretty_Z_chars (z : Z) : has_char c (pretty z) = false.
Proof.
  destruct z as [|p|p]; unfold pretty, pretty_Z.
  - simpl. rewrite orb_false_r. apply bool_decide_eq_false_2.
    intros <-. done.
  - apply pretty_N_chars.
  - rewrite str_app_cons, str_app_nil_l.
    change (bool_decide ("-"%char = c) || has_char c (pretty (Npos p)) = false).
    rewrite (pretty_N_chars (Npos p)), orb_false_r.
    by apply bool_decide_eq_false_2.
Qed.

End Numerals.

(** ** Flags of the build script *)

Section Flags.

Import ScriptSpec.

Lemma stock_script_chunks windows revision build_name architecture package
    timingstrict ignoreloops seed :
  script_text windows revision
    (stock_lines build_name architecture package timingstrict ignoreloops seed)
  = chunks_join
      (stock_chunks windows revision build_name architecture package
         (if negb timingstrict then "--timing-allow-fail" else "")
         (if ignoreloops then "--ignore-loops" else "")
         (pretty seed))
      ("bin" +:+ fail_suffix windows +:+ LF).
Proof.
  unfold script_text, stock_lines.
  destruct windows; csimpl; rewrite !str_app_assoc; reflexivity.
Qed.

(** A value without the name of a flag does not hold the flag, with or
    without two dashes put before the value. *)
Lemma no_name_no_flag a b name x :
  contains name x = false →
  contains (String a (String b name)) x = false.
Proof.
  intros Hx. apply not_true_is_false. intros H%contains_tail%contains_tail.
  congruence.
Qed.

Lemma no_name_no_flag_dashed name x :
  contains name x = false →
  contains (String "-" (String "-" name)) ("--" +:+ x) = false.
Proof.
  intros Hx. apply not_true_is_false.
  change ("--" +:+ x) with (String "-" (String "-" x)).
  cbn [contains]. rewrite !orb_true_iff. intros [H|[H|H]].
  - simpl in H. apply is_prefix_contains in H. congruence.
  - simpl in H. destruct x as [|y x]; [done|].
    apply andb_true_iff in H as [_ H]. apply is_prefix_contains in H.
    apply (contains_cons _ y) in H. congruence.
  - apply contains_tail, contains_tail in H. congruence.
Qed.

End Flags.

(** C6. Wherever a template line has the placeholder [{timefailarg}], it is
    rendered as [--timing-allow-fail] when [timingstrict] is false and as
    nothing when it is true, and [{ignoreloops}] as [--ignore-loops] when
    [ignoreloops] is true and as nothing otherwise. In the script generated
    from the module's build template the flag [--timing-allow-fail] therefore
    occurs when [timingstrict] is false and [--ignore-loops] when
    [ignoreloops] is true; when the build name, the device fields and the
    revision do not themselves spell the name of one of the flags, each flag
    occurs in exactly that case and is absent otherwise. *)
Theorem build_script_flags env build_name architecture package
    timingstrict ignoreloops seed w :
  (∀ windows before after rb ra,
     let kw := ScriptSpec.script_kwargs build_name architecture package
                 timingstrict ignoreloops (ScriptSpec.fail_suffix windows)
                 seed in
     format before kw = Ok rb →
     format after kw = Ok ra →
     format (before +:+ "{timefailarg}" +:+ after) kw
       = Ok (rb +:+ (if negb timingstrict then "--timing-allow-fail" else "")
                +:+ ra)
     ∧ format (before +:+ "{ignoreloops}" +:+ after) kw
       = Ok (rb +:+ (if ignoreloops then "--ignore-loops" else "") +:+ ra))
  ∧ ∃ script_file text,
    _build_script env _build_template build_name architecture package
        timingstrict ignoreloops seed w
      = (Ok script_file,
         set_files (<[resolve (cwd w) script_file := text]> (files w)) w)
    ∧ (timingstrict = false → contains "--timing-allow-fail" text = true)
    ∧ (ignoreloops = true → contains "--ignore-loops" text = true)
    ∧ (Forall (λ x, contains "timing-allow-fail" x = false
                    ∧ contains "ignore-loops" x = false)
         [build_name; architecture; package; get_litex_git_revision env] →
       contains "--timing-allow-fail" text = negb timingstrict
       ∧ contains "--ignore-loops" text = ignoreloops).
Proof.
  split.
  { intros windows before after rb ra kw Hb Ha. split.
    - by apply format_timefailarg.
    - by apply format_ignoreloops. }
  eexists _, _. split.
  { apply build_script_renders, stock_template_renders. }
  rewrite stock_script_chunks. split; [|split].
  - intros ->. rewrite contains_chunks by (by destruct (on_windows env)).
    apply orb_true_intro; left. apply existsb_exists.
    exists ("--timing-allow-fail", " "%char). split; [|reflexivity].
    unfold ScriptSpec.stock_chunks. cbn [In negb]. do 18 right. by left.
  - intros ->. rewrite contains_chunks by (by destruct (on_windows env)).
    apply orb_true_intro; left. apply existsb_exists.
    exists ("--ignore-loops", " "%char). split; [|reflexivity].
    unfold ScriptSpec.stock_chunks. cbn [In]. do 19 right. by left.
  - intros Hclean.
    apply Forall_cons in Hclean as [[Hbn_t Hbn_l] Hclean].
    apply Forall_cons in Hclean as [[Harch_t Harch_l] Hclean].
    apply Forall_cons in Hclean as [[Hpkg_t Hpkg_l] Hclean].
    apply Forall_cons in Hclean as [[Hrev_t Hrev_l] _].
    split.
    + rewrite contains_chunks by (by destruct (on_windows env)).
      unfold ScriptSpec.stock_chunks. cbn [existsb fst].
      rewrite (no_name_no_flag "-" "-" _ _ Hbn_t),
        (no_name_no_flag "-" "-" _ _ Hpkg_t),
        (no_name_no_flag "-" "-" _ _ Hrev_t),
        (no_name_no_flag_dashed "timing-allow-fail" _ Harch_t),
        (contains_has_char "--timing-allow-fail" (pretty seed) "t")
        by (done || by apply pretty_Z_chars).
      by destruct (on_windows env), timingstrict, ignoreloops.
    + rewrite contains_chunks by (by destruct (on_windows env)).
      unfold ScriptSpec.stock_chunks. cbn [existsb fst].
      rewrite (no_name_no_flag "-" "-" _ _ Hbn_l),
        (no_name_no_flag "-" "-" _ _ Hpkg_l),
        (no_name_no_flag "-" "-" _ _ Hrev_l),
        (no_name_no_flag_dashed "ignore-loops" _ Harch_l),
        (contains_has_char "--ignore-loops" (pretty seed) "g")
        by (done || by apply pretty_Z_chars).
      by destruct (on_windows env), timingstrict, ignoreloops.
Qed.

Lemma build_script_flags_witness :
  ∃ script_file text,
    _build_script (sample_env "linux" true 0) _build_template
        "top" "up5k" "sg48" true true 1 (sample_world "ice40-up5k-sg48")
      = (Ok script_file,
         set_files (<[resolve "/home/user/project" script_file := text]> ∅)
           (sample_world "ice40-up5k-sg48"))
    ∧ contains "--timing-allow-fail" text = false
    ∧ contains "--ignore-loops" text = true.
Proof.
  destruct (build_script_flags (sample_env "linux" true 0)
              "top" "up5k" "sg48" true true 1
              (sample_world "ice40-up5k-sg48"))
    as (_ & script_file & text & Hrun & _ & _ & Hexact).
  exists script_file, text. split; [exact Hrun|]. apply Hexact.
  repeat (apply Forall_cons_2; [split; reflexivity|]). apply Forall_nil_2.
Defined.

(** ** The working directory during a build *)

Section Build.

Variable env : Env.

Lemma resolve_absolute wd path : is_absolute path = true → resolve wd path = path.
Proof.
  destruct path as [|c path]; [done|]. unfold is_absolute, resolve.
  by repeat case_match.
Qed.

Lemma keeps_modify (f : World → World) :
  (∀ w, cwd (f w) = cwd w) → keeps_cwd (modify f).
Proof. intros Hf w. apply Hf. Qed.

Lemma keeps_lift {A} (r : result A) : keeps_cwd (lift r).
Proof. by intros w. Qed.

Lemma keeps_mret {A} (a : A) : keeps_cwd (mret a).
Proof. by intros w. Qed.

Lemma keeps_raise {A} (e : exn) : keeps_cwd (@raise A e).
Proof. by intros w. Qed.

Lemma keeps_get_world : keeps_cwd get_world.
Proof. by intros w. Qed.

Lemma keeps_bind {A B} (m : M A) (k : A → M B) :
  keeps_cwd m → (∀ a, keeps_cwd (k a)) → keeps_cwd (m ≫= k).
Proof.
  intros Hm Hk w. unfold mbind, M_bind. specialize (Hm w).
  destruct (m w) as [[a|e] w1]; simpl in *; [|done].
  by rewrite Hk.
Qed.

Lemma keeps_write_to_file filename contents :
  keeps_cwd (write_to_file filename contents).
Proof. by apply keeps_modify. Qed.

Lemma keeps_add_source filename : keeps_cwd (add_source filename).
Proof. by apply keeps_modify. Qed.

Lemma keeps_build_yosys template platform build_name synth_opts :
  keeps_cwd (_build_yosys template platform build_name synth_opts).
Proof.
  apply keeps_bind; [apply keeps_lift|]. intros ys.
  apply keeps_write_to_file.
Qed.

Lemma keeps_build_script template build_name architecture package
    timingstrict ignoreloops seed :
  keeps_cwd (_build_script env template build_name architecture package
               timingstrict ignoreloops seed).
Proof.
  unfold _build_script. destruct (on_windows env);
    (apply keeps_bind; [apply keeps_lift|]; intros contents;
     apply keeps_bind; [apply keeps_write_to_file|]; intros _;
     apply keeps_mret).
Qed.

Lemma keeps_run_script script : keeps_cwd (_run_script env script).
Proof.
  unfold _run_script. case_match; [apply keeps_raise|].
  apply keeps_bind; [apply keeps_get_world|]. intros w.
  case_match; [apply keeps_raise | apply keeps_mret].
Qed.

Lemma returns_home_bind {A B} home (m : M A) (k : A → M B) :
  keeps_cwd m → (∀ a, returns_home home (k a)) → returns_home home (m ≫= k).
Proof.
  intros Hm Hk w. unfold mbind, M_bind. specialize (Hm w).
  destruct (m w) as [[a|e] w1]; simpl in *; [|done].
  specialize (Hk a w1). rewrite <-Hm. apply Hk.
Qed.

Lemma returns_home_chdir {A} home (a : A) :
  is_absolute home = true → returns_home home (chdir home;; mret a).
Proof.
  intros Habs w. simpl. by apply resolve_absolute.
Qed.

(** Entering a directory, running a statement that goes back to where the
    process was on return, as [build] is written. *)
Lemma chdir_scope {A} dir (rest : string → M A) w :
  (∀ home, is_absolute home = true → returns_home home (rest home)) →
  is_absolute (cwd w) = true →
  let m := makedirs dir;; home ← getcwd; chdir dir;; rest home in
  match (m w).1 with
  | Ok _ => cwd (m w).2 = cwd w
  | Raise _ => cwd (m w).2 = resolve (cwd w) dir
  end.
Proof.
  intros Hrest Habs m.
  specialize (Hrest (cwd w) Habs
    (set_cwd (resolve (cwd w) dir)
       (set_dirs ({[resolve (cwd w) dir]} ∪ dirs w) w))).
  exact Hrest.
Qed.

End Build.

(** Three failing builds on a POSIX host: an unknown package, the tools
    missing from the search path, and a script that exits with status 1.
    Each raises with the process still in the build directory, not in the
    directory the build was started from. *)
Lemma build_error_stays_in_build_dir :
  let go env dev :=
    build env LatticeIceStormToolchain_init sample_design
      "build" "top" "" true false false 1 (sample_world dev) in
  cwd (sample_world "ice40-up5k-sg48") = "/home/user/project"
  ∧ ((go (sample_env "linux" true 0) "ice40-up5k-tq144").1
       = Raise (ValueError "Invalid device package tq144")
     ∧ cwd (go (sample_env "linux" true 0) "ice40-up5k-tq144").2
       = "/home/user/project/build")
  ∧ ((go (sample_env "linux" false 0) "ice40-up5k-sg48").1
       = Raise (OSError ("Unable to find Yosys/Nextpnr toolchain, please:"
                         +:+ LF
                         +:+ "- Add Yosys/Nextpnr toolchain to your $PATH."))
     ∧ cwd (go (sample_env "linux" false 0) "ice40-up5k-sg48").2
       = "/home/user/project/build")
  ∧ ((go (sample_env "linux" true 1) "ice40-up5k-sg48").1
       = Raise (OSError
                  "Error occured during Yosys/Nextpnr's script execution.")
     ∧ cwd (go (sample_env "linux" true 1) "ice40-up5k-sg48").2
       = "/home/user/project/build").
Proof.
  intros go. split; [reflexivity|].
  repeat split; vm_compute; reflexivity.
Qed.

(** C1, amended. A build that returns leaves the process in the working
    directory it was started from; a build that raises, after the directory
    change, leaves it in the build directory: the change is undone on the
    normal path only. *)
Theorem build_cwd_restored_on_return env self design build_dir build_name
    synth_opts run timingstrict ignoreloops seed w :
  is_absolute (cwd w) = true →
  match (build env self design build_dir build_name synth_opts run
           timingstrict ignoreloops seed w).1 with
  | Ok _ =>
      cwd (build env self design build_dir build_name synth_opts run
             timingstrict ignoreloops seed w).2 = cwd w
  | Raise _ =>
      cwd (build env self design build_dir build_name synth_opts run
             timingstrict ignoreloops seed w).2 = resolve (cwd w) build_dir
  end.
Proof.
  intros Habs. unfold build.
  apply (chdir_scope build_dir); [|done]. clear w Habs. intros home Habs.
  apply returns_home_bind; [apply keeps_write_to_file|]. intros _.
  apply returns_home_bind; [apply keeps_add_source|]. intros _.
  apply returns_home_bind; [apply keeps_lift|]. intros pcf.
  apply returns_home_bind; [apply keeps_write_to_file|]. intros _.
  apply returns_home_bind; [apply keeps_get_world|]. intros w1.
  apply returns_home_bind; [apply keeps_lift|]. intros pre_pack.
  apply returns_home_bind; [apply keeps_write_to_file|]. intros _.
  apply returns_home_bind; [apply keeps_get_world|]. intros w2.
  apply returns_home_bind; [apply keeps_build_yosys|]. intros _.
  apply returns_home_bind; [apply keeps_lift|]. intros [[family arch] pkg].
  apply returns_home_bind; [apply keeps_build_script|]. intros script.
  apply returns_home_bind;
    [destruct run; [apply keeps_run_script | apply keeps_mret]|].
  intros _. by apply returns_home_chdir.
Qed.

Lemma build_cwd_restored_on_return_witness :
  let w := sample_world "ice40-up5k-sg48" in
  let done_ :=
    build (sample_env "linux" true 0) LatticeIceStormToolchain_init
      sample_design "build" "top" "" true false false 1 w in
  is_ok done_.1 = true ∧ cwd done_.2 = "/home/user/project".
Proof.
  intros w done_. split; [reflexivity|].
  pose proof (build_cwd_restored_on_return (sample_env "linux" true 0)
                LatticeIceStormToolchain_init sample_design "build" "top" ""
                true false false 1 w eq_refl) as Hcwd.
  exact Hcwd.
Defined.

(** * Further properties of the module *)

(** ** Splitting and joining *)

Lemma split_nonempty sep s : split sep s ≠ [].
Proof.
  destruct s as [|c s]; simpl; [done|].
  case_decide; [done|]. by destruct (split sep s).
Qed.

Lemma join_cons_cons sep x y l :
  join sep (x :: y :: l) = x +:+ sep +:+ join sep (y :: l).
Proof. reflexivity. Qed.

(** Joining the fields of a split with the separator gives the text back. *)
Lemma join_split sep s : join (String sep "") (split sep s) = s.
Proof.
  induction s as [|c s IH]; [done|]. simpl.
  pose proof (split_nonempty sep s) as Hne.
  destruct (split sep s) as [|h t]; [done|].
  case_decide as Hc.
  - subst c. rewrite join_cons_cons, IH. reflexivity.
  - destruct t as [|h' t].
    + simpl in *. by rewrite IH.
    + rewrite join_cons_cons. rewrite join_cons_cons in IH.
      by rewrite str_app_cons, IH.
Qed.

(** X1. A device string the parser accepts is exactly the three returned
    fields joined by hyphens, its family is [ice40], and its package is one
    of the packages listed for its architecture. *)
Theorem parse_device_sound device family architecture package :
  parse_device device = Ok (family, architecture, package) →
  device = family +:+ "-" +:+ architecture +:+ "-" +:+ package
  ∧ family = "ice40"
  ∧ ∃ pkgs, dict_get packages architecture = Some pkgs ∧ package ∈ pkgs.
Proof.
  intros Hparse.
  destruct (decide (length (split "-" device) = 3)) as [Hlen|Hlen];
    [|destruct (parse_device_arity device Hlen) as [msg Hmsg]; congruence].
  destruct (split "-" device) as [|f [|a [|p [|x l]]]] eqn:Hs; try done.
  rewrite (parse_device_fields _ _ _ _ Hs) in Hparse.
  destruct (mem f ["ice40"]) eqn:Hf; cbn [negb] in Hparse; [|done].
  destruct (mem a packages.*1); cbn [negb] in Hparse; [|done].
  destruct (dict_get packages a) as [pkgs|] eqn:Hget; [|done].
  destruct (mem p pkgs) eqn:Hp; cbn [negb] in Hparse; [|done].
  injection Hparse as <- <- <-.
  split; [|split].
  - rewrite <-(join_split "-" device), Hs. reflexivity.
  - apply bool_decide_eq_true in Hf. by apply list_elem_of_singleton in Hf.
  - exists pkgs. split; [done|]. by apply bool_decide_eq_true in Hp.
Qed.

Lemma parse_device_sound_witness :
  "ice40-hx8k-cb132:4k" = "ice40" +:+ "-" +:+ "hx8k" +:+ "-" +:+ "cb132:4k"
  ∧ "ice40" = "ice40"
  ∧ ∃ pkgs, dict_get packages "hx8k" = Some pkgs ∧ "cb132:4k" ∈ pkgs.
Proof.
  apply (parse_device_sound "ice40-hx8k-cb132:4k"). reflexivity.
Defined.

(** ** More on the IO constraints *)

Lemma sig_lines_length sc :
  PcfSpec.has_pins sc → length (PcfSpec.sig_lines sc) = length sc.1.1.2.
Proof.
  destruct sc as [[[sig pins] others] resname]. unfold PcfSpec.has_pins.
  simpl. destruct pins as [|p1 [|p2 pins]]; intros Hne; [done|done|].
  apply length_imap.
Qed.

(** X2. When every signal has a pin, the emitter writes exactly one [set_io]
    line per physical pin: the number of lines before the raw constraints is
    the total number of pins. *)
Theorem build_pcf_one_line_per_pin named_sc named_pc :
  Forall PcfSpec.has_pins named_sc →
  ∃ lines,
    _build_pcf named_sc named_pc
      = Ok (PcfSpec.unlines lines +:+ PcfSpec.raw_block named_pc)
    ∧ length lines = sum_list ((λ sc : SignalConstraint, length sc.1.1.2)
                                 <$> named_sc)
    ∧ Forall (λ line, is_prefix "set_io " line = true) lines.
Proof.
  intros Hall. exists (concat (PcfSpec.sig_lines <$> named_sc)).
  split; [by apply build_pcf_text|]. split.
  - induction Hall as [|sc scs Hsc _ IH]; [done|]. csimpl.
    by rewrite length_app, IH, sig_lines_length.
  - apply Forall_concat, Forall_fmap, Forall_forall.
    intros [[[sig pins] others] resname] _. simpl.
    destruct pins as [|p1 [|p2 pins]]; [constructor|by repeat constructor|].
    apply Forall_forall. intros line Hline.
    apply elem_of_lookup_imap_1 in Hline as (i & pin & -> & _). done.
Qed.

Lemma build_pcf_one_line_per_pin_witness :
  ∃ lines,
    _build_pcf [("led", ["A1"], [], "user_led");
                ("data", ["B1"; "B2"; "B3"], [], "data")] []
      = Ok (PcfSpec.unlines lines +:+ "")
    ∧ length lines = 4
    ∧ Forall (λ line, is_prefix "set_io " line = true) lines.
Proof.
  apply (build_pcf_one_line_per_pin
           [("led", ["A1"], [], "user_led");
            ("data", ["B1"; "B2"; "B3"], [], "data")] []).
  repeat constructor; discriminate.
Defined.

(** X3. The emitter reads the signal name and the pins only: the other
    constraints of a signal (IO standards and the like) and its resource
    name never reach the text, whether it returns or raises. *)
Theorem build_pcf_ignores_others named_sc1 named_sc2 named_pc :
  (λ sc : SignalConstraint, (sc.1.1.1, sc.1.1.2)) <$> named_sc1
    = (λ sc : SignalConstraint, (sc.1.1.1, sc.1.1.2)) <$> named_sc2 →
  _build_pcf named_sc1 named_pc = _build_pcf named_sc2 named_pc.
Proof.
  intros Heq. rewrite !build_pcf_unfold. f_equal.
  generalize "". revert named_sc2 Heq.
  induction named_sc1 as [|[[[s1 p1] o1] r1] scs1 IH];
    intros [|[[[s2 p2] o2] r2] scs2] Heq acc; simplify_eq/=; [done|].
  match goal with
  | |- bind ?step _ = _ => destruct step; simpl; [by apply IH | done]
  end.
Qed.

Lemma build_pcf_ignores_others_witness :
  _build_pcf [("led", ["A1"], ["IOStandard(LVCMOS33)"], "user_led")] []
    = _build_pcf [("led", ["A1"], [], "")] [].
Proof.
  apply build_pcf_ignores_others. reflexivity.
Defined.

(** ** More on the timing constraints *)

(** X4. The clock emitter returns a text exactly when no constrained clock
    has a zero period; with a zero period in the map it raises
    [ZeroDivisionError] and returns nothing, not even the lines of the
    clocks before it. *)
Theorem build_pre_pack_partial env vns clks :
  ((∃ clk, (clk, Q2Qc 0) ∈ clks) →
     ∃ msg, _build_pre_pack env vns clks = Raise (ZeroDivisionError msg))
  ∧ (Forall (λ cp : Signal * Qc, cp.2 ≠ Q2Qc 0) clks ↔
       ∃ r, _build_pre_pack env vns clks = Ok r).
Proof.
  split; [|split].
  - intros [clk Hin]. by apply (pre_pack_zero env vns clks clk).
  - intros Hall. rewrite (pre_pack_lines env vns clks Hall). eauto.
  - intros [r Hr]. apply Forall_forall. intros [clk period] Hin Hzero.
    simpl in Hzero. subst period.
    destruct (pre_pack_zero env vns clks clk Hin) as [msg Hmsg]. congruence.
Qed.

Lemma build_pre_pack_partial_witness :
  let env := sample_env "linux" true 0 in
  let vns := v_ns sample_design in
  (∃ msg, _build_pre_pack env vns [(Sig 0, Q2Qc 10); (Sig 1, Q2Qc 0)]
          = Raise (ZeroDivisionError msg))
  ∧ ∃ r, _build_pre_pack env vns [(Sig 0, Q2Qc 10)] = Ok r.
Proof.
  intros env vns. split.
  - apply (proj1 (build_pre_pack_partial env vns _)).
    exists (Sig 1). apply list_elem_of_further, list_elem_of_here.
  - apply (proj1 (proj2 (build_pre_pack_partial env vns _))).
    repeat constructor. intros H. discriminate H.
Defined.

(** ** More on the period constraints *)

Lemma dict_set_fresh `{EqDecision K} {V} (d : list (K * V)) k v :
  dict_get d k = None → dict_set d k v = d ++ [(k, v)].
Proof.
  induction d as [|[k' v'] d IH]; simpl; [done|].
  case_decide; [done|]. intros Hd. by rewrite IH.
Qed.

(** X5. A clock that has no period yet is accepted with any period, zero and
    negative ones included: the call returns, the clock goes last in the
    clock map with that period, and [keep] is among its attributes. *)
Theorem add_period_constraint_fresh env clk period w :
  dict_get (clocks w) clk = None →
  ∃ w', add_period_constraint env clk period w = (Ok (), w')
        ∧ clocks w' = clocks w ++ [(clk, period)]
        ∧ "keep" ∈ attr w' !!! clk.
Proof.
  intros Hnone. rewrite add_period_constraint_unfold, Hnone.
  eexists. split; [done|]. split.
  - simpl. by apply dict_set_fresh.
  - apply mark_keep_has_keep.
Qed.

Lemma add_period_constraint_fresh_witness :
  ∃ w', add_period_constraint (sample_env "linux" true 0) (Sig 3)
          (Q2Qc (-5 # 2)) (sample_world "") = (Ok (), w')
        ∧ clocks w' = [(Sig 3, Q2Qc (-5 # 2))]
        ∧ "keep" ∈ attr w' !!! Sig 3.
Proof.
  apply (add_period_constraint_fresh (sample_env "linux" true 0) (Sig 3)
           (Q2Qc (-5 # 2)) (sample_world "")).
  reflexivity.
Defined.

(** X6. Whatever its outcome, a call touches the clock signal it is given
    and nothing else: the working directory, the files and the platform are
    as before, and every other signal keeps its attributes and its stored
    period. *)
Theorem add_period_constraint_frame env clk period w :
  let w' := (add_period_constraint env clk period w).2 in
  cwd w' = cwd w ∧ dirs w' = dirs w ∧ files w' = files w
  ∧ platform w' = platform w
  ∧ ∀ other, other ≠ clk →
      attr w' !! other = attr w !! other
      ∧ dict_get (clocks w') other = dict_get (clocks w) other.
Proof.
  intros w'. subst w'. rewrite add_period_constraint_unfold.
  assert (Hattr : ∀ other, other ≠ clk →
            attr (mark_keep clk w) !! other = attr w !! other).
  { intros other Hne. unfold mark_keep. simpl. by rewrite lookup_insert_ne. }
  destruct (dict_get (clocks w) clk) as [stored|];
    [case_bool_decide|]; simpl; repeat split; auto;
    by apply dict_get_set_ne.
Qed.

Lemma add_period_constraint_frame_witness :
  let w := set_clocks [(Sig 0, Q2Qc 10)] (sample_world "ice40-up5k-sg48") in
  let w' := (add_period_constraint (sample_env "linux" true 0) (Sig 1)
               (Q2Qc 20) w).2 in
  files w' = files w
  ∧ dict_get (clocks w') (Sig 0) = Some (Q2Qc 10)
  ∧ attr w' !! Sig 0 = None.
Proof.
  intros w w'.
  destruct (add_period_constraint_frame (sample_env "linux" true 0) (Sig 1)
              (Q2Qc 20) w) as (_ & _ & Hfiles & _ & Hother).
  split; [exact Hfiles|].
  destruct (Hother (Sig 0)) as [Hattr Hclock].
  - intros H. discriminate H.
  - split; [exact Hclock | exact Hattr].
Defined.

(** X7. The clock map never holds a clock twice: distinct keys stay distinct
    across a call, and the number of entries grows by one exactly when the
    call returns for a clock that was not in the map. *)
Theorem add_period_constraint_keys_distinct env clk period w :
  NoDup (clocks w).*1 →
  let r := add_period_constraint env clk period w in
  NoDup (clocks r.2).*1
  ∧ length (clocks r.2)
    = if is_ok r.1 && bool_decide (clk ∉ (clocks w).*1)
      then S (length (clocks w)) else length (clocks w).
Proof.
  intros Hnd r. subst r. rewrite add_period_constraint_unfold.
  assert (Hkeys := dict_set_keys (clocks w) clk period).
  assert (Hlen : ∀ d : list (Signal * Qc), length d = length d.*1)
    by (intros d; by rewrite length_fmap).
  destruct (dict_get (clocks w) clk) as [stored|] eqn:Hget.
  - assert (clk ∈ (clocks w).*1) as Hin.
    { destruct (decide (clk ∈ (clocks w).*1)) as [|Hn]; [done|].
      apply dict_get_None in Hn. congruence. }
    rewrite decide_True in Hkeys by done.
    rewrite (bool_decide_eq_false_2 (clk ∉ _)) by (by intros ?).
    rewrite andb_false_r.
    case_bool_decide; simpl; [done|].
    split; [by rewrite Hkeys | by rewrite !Hlen, Hkeys].
  - apply dict_get_None in Hget.
    rewrite decide_False in Hkeys by done.
    rewrite bool_decide_eq_true_2 by done. simpl. split.
    + rewrite Hkeys. apply NoDup_app. split; [done|]. split.
      * intros x Hx ->%list_elem_of_singleton. done.
      * apply NoDup_singleton.
    + rewrite !Hlen, Hkeys, length_app. simpl. lia.
Qed.

Lemma add_period_constraint_keys_distinct_witness :
  let w := set_clocks [(Sig 0, Q2Qc 10)] (sample_world "") in
  let r := add_period_constraint (sample_env "linux" true 0) (Sig 1)
             (Q2Qc 20) w in
  NoDup (clocks r.2).*1 ∧ length (clocks r.2) = 2.
Proof.
  intros w r.
  apply (add_period_constraint_keys_distinct (sample_env "linux" true 0)
           (Sig 1) (Q2Qc 20) w).
  apply NoDup_singleton.
Defined.

(** ** Running the script *)



(** ** More on the build script *)

(** X9. Generating the build script is all or nothing: when a template line
    does not render (an unknown placeholder, an unbalanced brace) the error
    is raised with the world untouched, no partial script left; when it
    returns, the only file written is the script it names. *)
Theorem build_script_all_or_nothing env template build_name architecture
    package timingstrict ignoreloops seed w :
  let r := _build_script env template build_name architecture package
             timingstrict ignoreloops seed w in
  (∀ e, r.1 = Raise e → r.2 = w)
  ∧ (∀ script, r.1 = Ok script →
       script = "build_" +:+ build_name
                  +:+ (if on_windows env then ".bat" else ".sh")
       ∧ is_Some (files r.2 !! resolve (cwd w) script)
       ∧ ∀ path, path ≠ resolve (cwd w) script →
           files r.2 !! path = files w !! path).
Proof.
  intros r. subst r. unfold _build_script.
  destruct (on_windows env); unfold mbind at 1, M_bind, lift;
    match goal with
    | |- context [for_each template ?body ?acc] =>
        destruct (for_each template body acc) as [contents|err]
    end; simpl; (split; [done|]); intros script [= <-];
    (split; [done|]); (split; [by rewrite lookup_insert_eq|]);
    intros path Hpath; by rewrite lookup_insert_ne.
Qed.

Lemma build_script_all_or_nothing_witness :
  let w := sample_world "ice40-up5k-sg48" in
  let r := _build_script (sample_env "linux" true 0)
             ["yosys {build_name}.ys"; "nextpnr-ice40 --freq {freq}"]
             "top" "up5k" "sg48" false false 1 w in
  r.1 = Raise (KeyError "freq") ∧ r.2 = w.
Proof.
  intros w r. split; [reflexivity|].
  apply (proj1 (build_script_all_or_nothing (sample_env "linux" true 0)
                  ["yosys {build_name}.ys"; "nextpnr-ice40 --freq {freq}"]
                  "top" "up5k" "sg48" false false 1 w) (KeyError "freq")).
  reflexivity.
Defined.

(** ** The synthesis script *)

Section YosysScript.

Import YosysScriptSpec.

Variable platform : Platform.
Variables build_name synth_opts : string.

Lemma yosys_loop template lines acc :
  Forall2 (λ s line,
      format s (yosys_kwargs platform build_name synth_opts) = Ok line)
    template lines →
  for_each template (λ l ys,
      line ← format l (yosys_kwargs platform build_name synth_opts);
      Ok (ys ++ [line])) acc
    = Ok (acc ++ lines).
Proof.
  intros Hall. revert acc.
  induction Hall as [|s line template lines Hs _ IH]; intros acc.
  - by rewrite app_nil_r.
  - cbn [for_each]. rewrite Hs. cbn [mbind result_bind bind].
    by rewrite IH, <-app_assoc.
Qed.

Lemma yosys_template_renders :
  Forall2 (λ s line,
      format s (yosys_kwargs platform build_name synth_opts) = Ok line)
    _yosys_template (stock_lines platform build_name synth_opts).
Proof.
  unfold _yosys_template, stock_lines.
  do 2 (constructor; [reflexivity|]).
  constructor.
  { rewrite <-(str_app_nil_r (_yosys_import_sources platform)).
    reflexivity. }
  repeat (constructor; [reflexivity|]). constructor.
Qed.

Lemma build_yosys_writes template lines w :
  Forall2 (λ s line,
      format s (yosys_kwargs platform build_name synth_opts) = Ok line)
    template lines →
  _build_yosys template platform build_name synth_opts w
    = (Ok (),
       set_files (<[resolve (cwd w) (build_name +:+ ".ys") :=
                      join LF lines]> (files w)) w).
Proof.
  intros Hall. unfold _build_yosys, mbind at 1, M_bind, lift.
  change (for_each template _ [])
    with (for_each template (λ l ys,
            line ← format l (yosys_kwargs platform build_name synth_opts);
            Ok (ys ++ [line])) []).
  by rewrite (yosys_loop _ _ _ Hall).
Qed.

End YosysScript.

(** X10. For a synthesis template whose lines all render, the rendered lines
    are written to [<build_name>.ys] joined by newlines, with no newline
    after the last one; when a line does not render the error is raised and
    nothing is written. *)
Theorem build_yosys_script template platform build_name synth_opts w :
  (∀ lines,
     Forall2 (λ s line,
         format s (YosysScriptSpec.yosys_kwargs platform build_name synth_opts)
           = Ok line) template lines →
     _build_yosys template platform build_name synth_opts w
       = (Ok (),
          set_files (<[resolve (cwd w) (build_name +:+ ".ys") :=
                         join LF lines]> (files w)) w))
  ∧ (∀ e, (_build_yosys template platform build_name synth_opts w).1
            = Raise e →
          (_build_yosys template platform build_name synth_opts w).2 = w).
Proof.
  split.
  - intros lines Hall. by apply build_yosys_writes.
  - unfold _build_yosys, mbind at 1, M_bind, lift.
    match goal with
    | |- context [for_each template ?body ?acc] =>
        destruct (for_each template body acc) as [ys|err]
    end; simpl; [done|]. by intros e _.
Qed.

Lemma build_yosys_script_witness :
  let w := sample_world "ice40-up5k-sg48" in
  _build_yosys ["read_verilog {build_name}.v"; "synth_ice40 {synth_opts}"]
      (platform w) "top" "-abc2" w
    = (Ok (),
       set_files (<["/home/user/project/top.ys" :=
                      "read_verilog top.v" +:+ LF +:+ "synth_ice40 -abc2"]> ∅)
         w)
  ∧ (_build_yosys ["synth_ice40 {top}"] (platform w) "top" "" w).2 = w.
Proof.
  intros w. split.
  - refine (eq_trans (proj1 (build_yosys_script _ _ _ _ w)
                        ["read_verilog top.v"; "synth_ice40 -abc2"] _) _).
    + repeat constructor.
    + reflexivity.
  - apply (proj2 (build_yosys_script ["synth_ice40 {top}"] (platform w)
                    "top" "" w) (KeyError "top")).
    reflexivity.
Defined.

(** X11. With the module's own synthesis template the script is always
    written, whatever the platform, the build name and the options: its six
    lines push the verilog defaults, read every source, pop the defaults,
    map the [keep] attribute and call [synth_ice40] with the options, the
    JSON output [<build_name>.json] and the top module [<build_name>]. *)
Theorem build_yosys_stock_script platform build_name synth_opts w :
  _build_yosys _yosys_template platform build_name synth_opts w
    = (Ok (),
       set_files (<[resolve (cwd w) (build_name +:+ ".ys") :=
                      join LF (YosysScriptSpec.stock_lines platform
                                 build_name synth_opts)]> (files w)) w).
Proof.
  apply build_yosys_writes, yosys_template_renders.
Qed.

(** ** The stages of a build *)

Lemma run_script_world env script w : (_run_script env script w).2 = w.
Proof.
  unfold _run_script. case_match; [done|].
  unfold mbind, M_bind, get_world. simpl.
  destruct (bool_decide (subprocess_call _ _ _ ≠ _)); reflexivity.
Qed.

Section BuildStages.

Variable env : Env.
Variable self : LatticeIceStormToolchain.
Variable design : Elaborated.
Variables build_dir build_name synth_opts : string.
Variables run timingstrict ignoreloops : bool.
Variable seed : Z.

Lemma build_pcf_stage w e :
  _build_pcf (named_sc design) (named_pc design) = Raise e →
  build env self design build_dir build_name synth_opts run timingstrict
      ignoreloops seed w
    = (Raise e, with_verilog design build_dir build_name w).
Proof.
  intros Hpcf.
  unfold build, mbind, M_bind, makedirs, getcwd, chdir, write_to_file,
    add_source, modify, lift; simpl. by rewrite Hpcf.
Qed.

Lemma build_pre_pack_stage w pcf e :
  _build_pcf (named_sc design) (named_pc design) = Ok pcf →
  _build_pre_pack env (v_ns design) (clocks w) = Raise e →
  build env self design build_dir build_name synth_opts run timingstrict
      ignoreloops seed w
    = (Raise e,
       written (build_name +:+ ".pcf") pcf
         (with_verilog design build_dir build_name w)).
Proof.
  intros Hpcf Hpp.
  unfold build, mbind, M_bind, makedirs, getcwd, chdir, write_to_file,
    add_source, modify, lift, get_world; simpl. rewrite Hpcf. simpl.
  by rewrite Hpp.
Qed.

End BuildStages.

(** Projections of updated worlds. *)
Ltac world_simpl :=
  cbn [cwd dirs files platform attr clocks device verilog_include_paths
       sources set_cwd set_dirs set_files set_platform set_attr set_clocks].

Section StockBuild.

Variable env : Env.
Variable design : Elaborated.
Variables build_dir build_name synth_opts : string.
Variables run timingstrict ignoreloops : bool.
Variable seed : Z.

Lemma build_stock_stages w pcf pre_pack :
  _build_pcf (named_sc design) (named_pc design) = Ok pcf →
  _build_pre_pack env (v_ns design) (clocks w) = Ok pre_pack →
  build env LatticeIceStormToolchain_init design build_dir build_name
      synth_opts run timingstrict ignoreloops seed w
    = let w4 := with_synthesis design build_dir build_name synth_opts
                  pcf pre_pack w in
      match parse_device (device (platform w)) with
      | Raise e => (Raise e, w4)
      | Ok (_, architecture, package) =>
          let w5 := with_script env build_name architecture package
                      timingstrict ignoreloops seed w4 in
          let script := script_name env build_name in
          if run then
            match (_run_script env script w5).1 with
            | Raise e => (Raise e, w5)
            | Ok _ => (Ok (v_ns design), set_cwd (resolve (cwd w5) (cwd w)) w5)
            end
          else (Ok (v_ns design), set_cwd (resolve (cwd w5) (cwd w)) w5)
      end.
Proof.
  intros Hpcf Hpp.
  unfold build, mbind, M_bind, makedirs, getcwd, chdir, write_to_file,
    add_source, modify, lift, get_world. cbv beta iota zeta.
  rewrite Hpcf. world_simpl. rewrite Hpp. world_simpl.
  erewrite build_yosys_writes by apply yosys_template_renders.
  world_simpl.
  destruct (parse_device (device (platform w))) as [[[family arch] pkg]|e];
    [|reflexivity].
  erewrite build_script_renders by apply stock_template_renders.
  cbv zeta. destruct run; [|reflexivity].
  match goal with
  | |- context [_run_script env ?script ?w5] =>
      change w5
        with (with_script env build_name arch pkg timingstrict ignoreloops
                seed (with_synthesis design build_dir build_name synth_opts
                        pcf pre_pack w));
      change script with (script_name env build_name)
  end.
  match goal with
  | |- context [_run_script env ?script ?w5] =>
      pose proof (run_script_world env script w5) as Hw5;
      destruct (_run_script env script w5) as [[[]|e] w6]
  end; simpl in Hw5; subst w6; reflexivity.
Qed.

End StockBuild.

(** ** Where a build stops *)

(** X12. The emitters run after the verilog file is written and registered:
    a signal without pins makes the build raise [IndexError] with only that
    file written, and a zero period makes it raise [ZeroDivisionError] after
    the [.pcf] file is written and before the pre-pack file is. Either way
    the process stays in the build directory. *)
Theorem build_stops_at_emitter env self design build_dir build_name
    synth_opts run timingstrict ignoreloops seed w :
  (Exists (λ sc : SignalConstraint, sc.1.1.2 = []) (named_sc design) →
     build env self design build_dir build_name synth_opts run timingstrict
         ignoreloops seed w
       = (Raise (IndexError "list index out of range"),
          with_verilog design build_dir build_name w))
  ∧ (Forall PcfSpec.has_pins (named_sc design) →
     (∃ clk, (clk, Q2Qc 0) ∈ clocks w) →
     ∃ msg pcf,
       _build_pcf (named_sc design) (named_pc design) = Ok pcf
       ∧ build env self design build_dir build_name synth_opts run
             timingstrict ignoreloops seed w
         = (Raise (ZeroDivisionError msg),
            written (build_name +:+ ".pcf") pcf
              (with_verilog design build_dir build_name w))).
Proof.
  split.
  - intros Hex. apply build_pcf_stage.
    by rewrite build_pcf_unfold, (pcf_loop_no_pins _ _ Hex).
  - intros Hpins [clk Hclk].
    destruct (pre_pack_zero env (v_ns design) (clocks w) clk Hclk)
      as [msg Hmsg].
    eexists msg, _. split; [by apply build_pcf_text|].
    apply build_pre_pack_stage; [by apply build_pcf_text | done].
Qed.

Lemma build_stops_at_emitter_witness :
  let env := sample_env "linux" true 0 in
  let w := set_clocks [(Sig 0, Q2Qc 0)] (sample_world "ice40-up5k-sg48") in
  ∃ msg pcf w',
    build env LatticeIceStormToolchain_init sample_design "build" "top" ""
        true false false 1 w = (Raise (ZeroDivisionError msg), w')
    ∧ w' = written "top.pcf" pcf (with_verilog sample_design "build" "top" w)
    ∧ files w' !! "/home/user/project/build/top.pcf" = Some pcf
    ∧ files w' !! "/home/user/project/build/top_pre_pack.py" = None.
Proof.
  intros env w.
  destruct (proj2 (build_stops_at_emitter env LatticeIceStormToolchain_init
                     sample_design "build" "top" "" true false false 1 w))
    as (msg & pcf & Hpcf & Hbuild).
  - repeat constructor. discriminate.
  - exists (Sig 0). apply list_elem_of_here.
  - eexists msg, pcf, _. split; [exact Hbuild|]. split; [reflexivity|].
    injection Hpcf as <-. split; reflexivity.
Defined.

(** X13. Constraining a clock to a zero period and building afterwards: the
    constraint is accepted, and the build then raises [ZeroDivisionError]. *)
Theorem zero_period_breaks_build env self design build_dir build_name
    synth_opts run timingstrict ignoreloops seed clk w :
  dict_get (clocks w) clk = None →
  Forall PcfSpec.has_pins (named_sc design) →
  ∃ msg w',
    (add_period_constraint env clk (Q2Qc 0);;
     build env self design build_dir build_name synth_opts run timingstrict
       ignoreloops seed) w
    = (Raise (ZeroDivisionError msg), w').
Proof.
  intros Hfresh Hpins.
  unfold mbind, M_bind. rewrite add_period_constraint_unfold, Hfresh.
  set (w1 := set_clocks _ _).
  destruct (pre_pack_zero env (v_ns design) (clocks w1) clk) as [msg Hmsg].
  { subst w1. simpl. rewrite (dict_set_fresh _ _ _ Hfresh).
    apply elem_of_app. right. apply list_elem_of_here. }
  erewrite build_pre_pack_stage by (by apply build_pcf_text || exact Hmsg).
  eauto.
Qed.

Lemma zero_period_breaks_build_witness :
  ∃ msg w',
    (add_period_constraint (sample_env "linux" true 0) (Sig 0) (Q2Qc 0);;
     build (sample_env "linux" true 0) LatticeIceStormToolchain_init
       sample_design "build" "top" "" true false false 1)
      (sample_world "ice40-up5k-sg48")
    = (Raise (ZeroDivisionError msg), w').
Proof.
  apply (zero_period_breaks_build (sample_env "linux" true 0)
           LatticeIceStormToolchain_init sample_design "build" "top" ""
           true false false 1 (Sig 0) (sample_world "ice40-up5k-sg48")).
  - reflexivity.
  - repeat constructor. discriminate.
Defined.

(** ** Builds with the module's own templates *)

(** X14. The device string is checked late: with the module's own templates
    and emitters that return, a device the parser rejects makes the build
    raise the parser's error after the verilog file, both constraint files
    and the synthesis script are written, and before any build script is:
    the files are the four of them added to the files that were there. *)
Theorem build_checks_device_late env design build_dir build_name synth_opts
    run timingstrict ignoreloops seed w pcf pre_pack e :
  _build_pcf (named_sc design) (named_pc design) = Ok pcf →
  _build_pre_pack env (v_ns design) (clocks w) = Ok pre_pack →
  parse_device (device (platform w)) = Raise e →
  let r := build env LatticeIceStormToolchain_init design build_dir
             build_name synth_opts run timingstrict ignoreloops seed w in
  let dir := resolve (cwd w) build_dir in
  r.1 = Raise e
  ∧ cwd r.2 = dir
  ∧ ∃ ys,
      files r.2
        = <[resolve dir (build_name +:+ ".ys") := ys]>
            (<[resolve dir (build_name +:+ "_pre_pack.py") := pre_pack]>
               (<[resolve dir (build_name +:+ ".pcf") := pcf]>
                  (<[resolve dir (build_name +:+ ".v") := v_text design]>
                     (files w)))).
Proof.
  intros Hpcf Hpp Hdev r dir. subst r.
  rewrite (build_stock_stages _ _ _ _ _ _ _ _ _ _ _ _ Hpcf Hpp), Hdev.
  cbv zeta. split; [done|]. split; [done|]. eexists. reflexivity.
Qed.

Lemma build_checks_device_late_witness :
  let r := build (sample_env "linux" true 0) LatticeIceStormToolchain_init
             sample_design "build" "top" "" true false false 1
             (sample_world "ice40-up5k-tq144") in
  r.1 = Raise (ValueError "Invalid device package tq144")
  ∧ cwd r.2 = "/home/user/project/build"
  ∧ files r.2 !! "/home/user/project/build/top.ys" ≠ None
  ∧ files r.2 !! "/home/user/project/build/build_top.sh" = None.
Proof.
  intros r.
  destruct (build_checks_device_late (sample_env "linux" true 0)
              sample_design "build" "top" "" true false false 1
              (sample_world "ice40-up5k-tq144")
              ("set_io led A1" +:+ LF) ""
              (ValueError "Invalid device package tq144")
              eq_refl eq_refl eq_refl) as (Hr & Hcwd & ys & Hfiles).
  split; [exact Hr|]. split; [exact Hcwd|].
  fold r in Hfiles. rewrite Hfiles. split.
  - rewrite lookup_insert_eq. discriminate.
  - reflexivity.
Defined.

(** X15. With [run] false the tools are neither looked for nor started: the
    outcome and the files of the build are the same on two hosts that differ
    only in what is on the search path and in what the script would exit
    with. *)
Theorem build_dry_run_ignores_tools env1 env2 self design build_dir
    build_name synth_opts timingstrict ignoreloops seed w :
  float_str env1 = float_str env2 →
  sys_platform env1 = sys_platform env2 →
  get_litex_git_revision env1 = get_litex_git_revision env2 →
  build env1 self design build_dir build_name synth_opts false timingstrict
      ignoreloops seed w
  = build env2 self design build_dir build_name synth_opts false
      timingstrict ignoreloops seed w.
Proof.
  destruct env1 as [fs1 f2f1 sp1 wh1 sc1 rev1].
  destruct env2 as [fs2 f2f2 sp2 wh2 sc2 rev2]. simpl.
  intros -> -> ->. reflexivity.
Qed.

Lemma build_dry_run_ignores_tools_witness :
  let go env :=
    build env LatticeIceStormToolchain_init sample_design "build" "top" ""
      false false false 1 (sample_world "ice40-up5k-sg48") in
  go (sample_env "linux" false 1) = go (sample_env "linux" true 0)
  ∧ is_ok (go (sample_env "linux" false 1)).1 = true.
Proof.
  intros go. split; [|vm_compute; reflexivity].
  exact (build_dry_run_ignores_tools (sample_env "linux" false 1)
           (sample_env "linux" true 0) LatticeIceStormToolchain_init
           sample_design "build" "top" "" false false 1
           (sample_world "ice40-up5k-sg48") eq_refl eq_refl eq_refl).
Defined.





(** ** What a build leaves alone *)

Section Preserved.

Context {B : Type} (view : World → B).
Hypothesis view_cwd : ∀ d w, view (set_cwd d w) = view w.
Hypothesis view_dirs : ∀ ds w, view (set_dirs ds w) = view w.
Hypothesis view_files : ∀ fs w, view (set_files fs w) = view w.
Hypothesis view_source : ∀ src w,
  view (set_platform
          {| device := device (platform w);
             verilog_include_paths := verilog_include_paths (platform w);
             sources := sources (platform w) ++ [src] |} w) = view w.








End Preserved.


(** ** More on the source-import block *)

(** X19. The block is made of the file names, the languages and the include
    paths only: the library a source is registered under and the device of
    the platform never reach it. *)
Theorem yosys_import_sources_ignores_library platform1 platform2 :
  verilog_include_paths platform1 = verilog_include_paths platform2 →
  (λ src : string * string * string, (src.1.1, src.1.2)) <$> sources platform1
    = (λ src : string * string * string, (src.1.1, src.1.2))
        <$> sources platform2 →
  _yosys_import_sources platform1 = _yosys_import_sources platform2.
Proof.
  intros Hinc Hsrc. unfold _yosys_import_sources.
  rewrite !include_loop, !reads_loop, Hinc. f_equal. f_equal.
  generalize dependent (sources platform2).
  induction (sources platform1) as [|[[f1 l1] b1] srcs1 IH];
    intros [|[[f2 l2] b2] srcs2] Hsrc; simplify_eq/=; [done|].
  f_equal. by apply IH.
Qed.

Lemma yosys_import_sources_ignores_library_witness :
  _yosys_import_sources
    {| device := "ice40-up5k-sg48"; verilog_include_paths := ["rtl"];
       sources := [("core.v", "verilog", "work")] |}
  = _yosys_import_sources
      {| device := "ice40-hx8k-ct256"; verilog_include_paths := ["rtl"];
         sources := [("core.v", "verilog", "vendor")] |}.
Proof.
  apply yosys_import_sources_ignores_library; reflexivity.
Defined.
